(** * collectd-more-redis: the INFO parser of [main.go]

    A shallow embedding of the parsing core of [main.go] ([fetchMetrics],
    [parseLine], [parseKVLine]) together with the parts of Go's [strings],
    [bufio] and of redigo's reply helpers that these functions call.

    Go strings are byte sequences; they are modelled by [string], whose
    characters are the 256 values of [ascii]. *)

From Stdlib Require Import String Ascii List Bool Arith NArith ZArith Lia.
From Stdlib Require Import DecimalString.
Import ListNotations.

Open Scope list_scope.
Open Scope string_scope.

(** ** Go's [strings] package, as far as [main.go] uses it

    Every separator that [main.go] passes ([":"], [","], ["="]) is a single
    byte, so separators are bytes here. *)

Module strings.

(** [strings.HasPrefix(s, prefix)]. *)
Fixpoint HasPrefix (s prefix : string) {struct prefix} : bool :=
  match prefix with
  | EmptyString => true
  | String p prefix' =>
      match s with
      | EmptyString => false
      | String c s' => Ascii.eqb c p && HasPrefix s' prefix'
      end
  end.

(** The slice [s[n:]]. *)
Fixpoint drop (n : nat) (s : string) : string :=
  match n, s with
  | S n', String _ s' => drop n' s'
  | _, _ => s
  end.

(** [strings.TrimPrefix(s, prefix)]. *)
Definition TrimPrefix (s prefix : string) : string :=
  if HasPrefix s prefix then drop (String.length prefix) s else s.

(** [strings.Count(s, sep)] for a one-byte separator. *)
Fixpoint Count (s : string) (sep : ascii) : nat :=
  match s with
  | EmptyString => 0
  | String c s' => (if Ascii.eqb c sep then 1 else 0) + Count s' sep
  end.

(** The search for the first separator and the two slices around it:
    [m := Index(s, sep)], then [s[:m]] and [s[m+len(sep):]]
    (this is [strings.Cut]). *)
Fixpoint Cut (s : string) (sep : ascii) : option (string * string) :=
  match s with
  | EmptyString => None
  | String c s' =>
      if Ascii.eqb c sep then Some (EmptyString, s')
      else match Cut s' sep with
           | Some (before, after) => Some (String c before, after)
           | None => None
           end
  end.

(** [strings.SplitN(s, sep, n)] for [n >= 0]: at most [n] parts, the last
    one being the unsplit remainder. *)
Fixpoint SplitN (s : string) (sep : ascii) (n : nat) : list string :=
  match n with
  | O => []
  | S n' =>
      match n' with
      | O => [s]
      | S _ =>
          match Cut s sep with
          | Some (before, after) => before :: SplitN after sep n'
          | None => [s]
          end
      end
  end.

(** [strings.Split(s, sep)]: [SplitN] with [n = Count(s, sep) + 1]. *)
Definition Split (s : string) (sep : ascii) : list string :=
  SplitN s sep (Count s sep + 1).

(** The ASCII white space of [strings.TrimSpace]:
    tab, line feed, vertical tab, form feed, carriage return, space. *)
Definition isSpace (c : ascii) : bool :=
  let n := nat_of_ascii c in
  ((9 <=? n)%nat && (n <=? 13)%nat) || (n =? 32)%nat.

Fixpoint TrimLeftSpace (s : string) : string :=
  match s with
  | EmptyString => EmptyString
  | String c s' => if isSpace c then TrimLeftSpace s' else s
  end.

Fixpoint TrimRightSpace (s : string) : string :=
  match s with
  | EmptyString => EmptyString
  | String c s' =>
      match TrimRightSpace s' with
      | EmptyString => if isSpace c then EmptyString else String c EmptyString
      | t => String c t
      end
  end.

(** [strings.TrimSpace(s)] on ASCII text: bytes above 127 are kept, where
    Go decodes UTF-8 and also trims the white space of Unicode (U+0085,
    U+00A0 and the like). *)
Definition TrimSpace (s : string) : string :=
  TrimRightSpace (TrimLeftSpace s).

Definition toLowerByte (c : ascii) : ascii :=
  let n := nat_of_ascii c in
  if (65 <=? n)%nat && (n <=? 90)%nat then ascii_of_nat (n + 32) else c.

(** [strings.ToLower(s)] on ASCII text: bytes above 127 are kept, where
    Go lowers the letters of Unicode and rewrites invalid UTF-8. *)
Fixpoint ToLower (s : string) : string :=
  match s with
  | EmptyString => EmptyString
  | String c s' => String (toLowerByte c) (ToLower s')
  end.

End strings.

Export strings.

Arguments Cut s%_string sep%_char.
Arguments Count s%_string sep%_char.
Arguments SplitN s%_string sep%_char n%_nat.
Arguments Split s%_string sep%_char.

(** ** Errors *)

(** A Go [error] value, identified with its message. *)
Inductive error : Type :=
| errorString (msg : string).

(** [fmt.Errorf(format, n)] for a format that ends in its only verb [%d]:
    [prefix] is the format without the verb. *)
Definition Errorf_d (prefix : string) (n : nat) : error :=
  errorString (prefix ++ NilEmpty.string_of_uint (Nat.to_uint n)).

(** ** The data model of [main.go] *)

Record Metric : Type := mkMetric {
  mSection : string;
  mPrefix : string;
  mKey : string;
  mValue : string
}.

Definition Metrics : Type := list Metric.

(** [ms = append(ms, m)]. *)
Definition append (ms : Metrics) (m : Metric) : Metrics := (ms ++ [m])%list.

(** ** [parseKVLine] *)

Definition parseKVLine (section prefix v : string) : Metrics :=
  let ms : Metrics := [] in
  let parts := Split v "," in
  fold_left
    (fun (ms : Metrics) (pair : string) =>
       let tupl := SplitN pair "=" 2 in
       if negb (List.length tupl =? 2)%nat then ms
       else append ms {| mSection := section;
                         mPrefix := prefix;
                         mKey := nth 0 tupl "";
                         mValue := nth 1 tupl "" |})
    parts ms.

(** ** [parseLine] *)

Definition parseLine (section line : string) : Metrics * option error :=
  let ms : Metrics := [] in
  if HasPrefix line "#" then (ms, None)
  else
    let parts := SplitN line ":" 2 in
    if negb (List.length parts =? 2)%nat
    then (ms, Some (Errorf_d "expected 2 parts, got " (List.length parts)))
    else
      let k := nth 0 parts "" in
      let v := nth 1 parts "" in
      let ms :=
        if HasPrefix k "cmdstat_" || HasPrefix k "db"
        then fold_left append (parseKVLine section k v) ms
        else append ms {| mSection := section;
                          mPrefix := "";
                          mKey := k;
                          mValue := v |} in
      (ms, None).

(** ** Go's [bufio.Scanner] with its default split function [ScanLines] *)

Module bufio.

Definition LF : ascii := "010"%char.
Definition CR : ascii := "013"%char.

(** [MaxScanTokenSize = 64 * 1024]: the size the Scanner's buffer may grow
    to.  A line that does not fit makes [Scan] stop with [ErrTooLong]. *)
Definition MaxScanTokenSize : N := 64 * 1024.

(** [dropCR] drops a terminal carriage return from the data. *)
Fixpoint dropCR (data : string) : string :=
  match data with
  | EmptyString => EmptyString
  | String c rest =>
      match rest with
      | EmptyString => if Ascii.eqb c CR then EmptyString else data
      | String _ _ => String c (dropCR rest)
      end
  end.

(** The lines [ScanLines] cuts the data into: every line feed ends a line,
    and a non-empty rest after the last line feed is a final line. *)
Fixpoint rawLines (data : string) : list string :=
  match data with
  | EmptyString => []
  | String c rest =>
      if Ascii.eqb c LF then EmptyString :: rawLines rest
      else match rawLines rest with
           | [] => [String c EmptyString]
           | l :: ls => String c l :: ls
           end
  end.

(** A line fits the buffer when it is shorter than the buffer's greatest
    size (the buffer also has to hold the line feed). *)
Definition fits (line : string) : bool :=
  (N.of_nat (String.length line) <? MaxScanTokenSize)%N.

Fixpoint takeWhile {A : Type} (p : A -> bool) (l : list A) : list A :=
  match l with
  | [] => []
  | x :: l' => if p x then x :: takeWhile p l' else []
  end.

(** The values of [scanner.Text()] after each successful [scanner.Scan()],
    for [scanner := bufio.NewScanner(bytes.NewReader(blob))]: the lines
    without their end-of-line marker, up to the first line that does not
    fit the buffer. *)
Definition Scan (blob : string) : list string :=
  map dropCR (takeWhile fits (rawLines blob)).

End bufio.

(** ** redigo's replies *)

Module redis.

(** The dynamic types of a reply ([interface{}]) of [conn.Do]. *)
#[warnings="-register-all"]
Inductive Reply : Type :=
| ReplyNil
| ReplyBytes (b : string)
| ReplyString (s : string)
| ReplyInt (n : Z)
| ReplyError (msg : string)
| ReplyArray (rs : list Reply).

(** A connection, as far as one call of [conn.Do(cmd, args...)] goes. *)
Record Conn : Type := mkConn {
  Do : string -> list string -> Reply * option error
}.

Definition ErrNil : error := errorString "redigo: nil returned".

(** [redis.Bytes(reply, err)]. *)
Definition Bytes (reply : Reply) (err : option error) : string * option error :=
  match err with
  | Some e => ("", Some e)
  | None =>
      match reply with
      | ReplyBytes b => (b, None)
      | ReplyString s => (s, None)
      | ReplyNil => ("", Some ErrNil)
      | ReplyError msg => ("", Some (errorString msg))
      | ReplyInt _ =>
          ("", Some (errorString
                       "redigo: unexpected type for Bytes, got type int64"))
      | ReplyArray _ =>
          ("", Some (errorString
                       "redigo: unexpected type for Bytes, got type []interface {}"))
      end
  end.

(** [redis.String(reply, err)]. *)
Definition String (reply : Reply) (err : option error) : string * option error :=
  match err with
  | Some e => ("", Some e)
  | None =>
      match reply with
      | ReplyBytes b => (b, None)
      | ReplyString s => (s, None)
      | ReplyNil => ("", Some ErrNil)
      | ReplyError msg => ("", Some (errorString msg))
      | ReplyInt _ =>
          ("", Some (errorString
                       "redigo: unexpected type for String, got type int64"))
      | ReplyArray _ =>
          ("", Some (errorString
                       "redigo: unexpected type for String, got type []interface {}"))
      end
  end.

End redis.

(** ** [fetchMetrics] *)

(** The body of the loop [for scanner.Scan() { line := scanner.Text() ... }]
    on the loop's variables [s] and [ms]. *)
Definition scanLine (st : string * Metrics) (line : string) : string * Metrics :=
  let '(s, ms) := st in
  if (String.length line =? 0)%nat then (s, ms)
  else if HasPrefix line "#"
  then (ToLower (TrimSpace (TrimPrefix line "#")), ms)
  else
    let '(mms, _) := parseLine s line in
    (s, fold_left append mms ms).

Definition fetchMetrics (conn : redis.Conn) : Metrics * option error :=
  let ms : Metrics := [] in
  let s := "" in
  let '(reply, err) := redis.Do conn "INFO" ["ALL"] in
  match err with
  | Some e => (ms, Some e)
  | None =>
      let '(blob, err) := redis.Bytes reply err in
      match err with
      | Some e => (ms, Some e)
      | None =>
          let '(_, ms) := fold_left scanLine (bufio.Scan blob) (s, ms) in
          (ms, None)
      end
  end.

(** ** Vocabulary of the specification *)

(** The one-byte string of a line feed, and the end-of-line marker CR LF
    that Redis writes. *)
Definition nl : string := String bufio.LF "".
Definition crlf : string := String bufio.CR nl.

(** A connection on which [INFO ALL] is answered by the text [blob]. *)
Definition replying (blob : string) : redis.Conn :=
  redis.mkConn (fun _ _ => (redis.ReplyBytes blob, None)).

(** What reading the source yields: the text, or the error of the read. *)
Definition fetched (conn : redis.Conn) : string * option error :=
  let '(reply, err) := redis.Do conn "INFO" ["ALL"] in
  redis.Bytes reply err.

(** The decision rule of the field parser: the key starts with
    [cmdstat_] or with [db]. *)
Definition expandable (k : string) : bool :=
  HasPrefix k "cmdstat_" || HasPrefix k "db".

(** What the expander makes of one candidate pair: a record when the
    candidate has an equals sign, nothing otherwise. *)
Definition expandPair (section prefix candidate : string) : Metrics :=
  match Cut candidate "=" with
  | Some (name, value) => [mkMetric section prefix name value]
  | None => []
  end.

(** The text [name=value] of a pair. *)
Definition pairText (p : string * string) : string :=
  fst p ++ "=" ++ snd p.

(** The most recent line of [pre] that begins with [#], if any. *)
Fixpoint lastHeader (pre : list string) : option string :=
  match pre with
  | [] => None
  | l :: pre' =>
      match lastHeader pre' with
      | Some h => Some h
      | None => if HasPrefix l "#" then Some l else None
      end
  end.

(** The section the specification gives to a record found after the lines
    [pre]: the lowercase, trimmed text after the [#] of the most recent
    header, or the empty string when there is none. *)
Definition sectionAfter (pre : list string) : string :=
  match lastHeader pre with
  | Some h => ToLower (TrimSpace (TrimPrefix h "#"))
  | None => ""
  end.

(** A text is at the start of a line when it is empty or ends with a line
    feed. *)
Fixpoint lineStart (t : string) : bool :=
  match t with
  | EmptyString => true
  | String c t' =>
      match t' with
      | EmptyString => Ascii.eqb c bufio.LF
      | String _ _ => lineStart t'
      end
  end.

(** A run of blank lines, each ended by CR LF ([true]) or by LF alone. *)
Fixpoint blankLines (ends : list bool) : string :=
  match ends with
  | [] => ""
  | b :: ends' => (if b then crlf else nl) ++ blankLines ends'
  end.

(** The section after one more line: a header line sets it. *)
Definition nextSection (s line : string) : string :=
  if HasPrefix line "#" then ToLower (TrimSpace (TrimPrefix line "#")) else s.

(** The section the loop has reached after the lines [pre], from [s]. *)
Definition sectionFrom (s : string) (pre : list string) : string :=
  fold_left nextSection pre s.

(** The records of a sequence of lines read with the section [s] current:
    each line's records under the section current at that line. *)
Fixpoint scanRecords (s : string) (lines : list string) : Metrics :=
  match lines with
  | [] => []
  | line :: lines' =>
      (fst (parseLine s line) ++ scanRecords (nextSection s line) lines')%list
  end.

(** A line that neither is a header nor has a colon. *)
Definition malformed (line : string) : Prop :=
  HasPrefix line "#" = false /\ Count line ":" = 0.

(** The text of [count] copies of [s] ([strings.Repeat]). *)
Fixpoint Repeat (s : string) (count : nat) : string :=
  match count with
  | O => ""
  | S n => s ++ Repeat s n
  end.

(** A line of 64 KiB, one byte more than the Scanner's buffer can hold
    together with its line feed. *)
Definition longLine : string := Repeat "x" (N.to_nat bufio.MaxScanTokenSize).

(** ** [getRedis] *)

(** [redis.Dial(network, address)]: a connection, or the error of the
    dial. *)
Definition Dialer : Type := string -> string -> redis.Conn + error.

(** The verb [%d] of [fmt] on an integer. *)
Definition Sprintf_d (z : Z) : string := NilEmpty.string_of_int (Z.to_int z).

(** [err.Error()]. *)
Definition Error (e : error) : string :=
  match e with errorString msg => msg end.

(** [getRedis]: its result and what it prints. *)
Definition getRedis (Dial : Dialer) (host : string) (port : Z)
  : (redis.Conn + error) * string :=
  let addr := host ++ ":" ++ Sprintf_d port in
  match Dial "tcp" addr with
  | inr err => (inr err, "")
  | inl r =>
      let '(reply, err) := redis.Do r "PING" [] in
      let '(s, err) := redis.String reply err in
      match err with
      | Some e => (inr e, "")
      | None =>
          if negb (s =? "PONG")
          then (inr (errorString ("expected PONG, got " ++ s)), "")
          else (inl r, "# connected to Redis server: " ++ addr ++ nl)
      end
  end.

(** ** The loop of [main] *)

(** The name [pk] that [main] gives a metric: [Prefix/Key] when the prefix
    is not empty, else [Key]. *)
Definition pk (m : Metric) : string :=
  if negb (mPrefix m =? "") then mPrefix m ++ "/" ++ mKey m else mKey m.

(** How a turn of the loop of [main] ends: [time.Sleep(interval)] and the
    next turn, or [os.Exit(code)]. *)
Inductive next : Type :=
| Sleep (interval : Z)
| Exit (code : Z).

Section MainLoop.

(** The floating-point side of [main] is kept abstract: the type
    [float64], [strconv.ParseFloat(s, 64)], the verb [%f] of [fmt], and
    [Duration.Seconds()] on a duration in nanoseconds. *)
Variable float64 : Type.
Variable ParseFloat : string -> float64 * option error.
Variable Sprintf_f : float64 -> string.
Variable Seconds : Z -> float64.

(** The body of [for _, m := range ms], on the text printed so far;
    [t] is [time.Now().Unix()]. *)
Definition putval (interval t : Z) (out : string) (m : Metric) : string :=
  let pk := pk m in
  let '(f, err) := ParseFloat (mValue m) in
  match err with
  | Some _ => out
  | None =>
      out ++ "PUTVAL redis/" ++ mSection m ++ "/" ++ pk ++
      " interval=" ++ Sprintf_f (Seconds interval) ++
      " " ++ Sprintf_d t ++ ":" ++ Sprintf_f f ++ nl
  end.

(** One turn of the loop [for { ... }] of [main]: what it prints and how
    it ends. *)
Definition cycle (conn : redis.Conn) (interval t : Z) : string * next :=
  let '(ms, err) := fetchMetrics conn in
  match err with
  | Some e =>
      ("error fetching metrics:" ++ nl ++ Error e ++ nl, Exit 1)
  | None => (fold_left (putval interval t) ms "", Sleep interval)
  end.

End MainLoop.

(** A metric's value is numeric for a given [ParseFloat]. *)
Definition numeric {float64 : Type}
  (ParseFloat : string -> float64 * option error) (m : Metric) : bool :=
  match snd (ParseFloat (mValue m)) with
  | None => true
  | Some _ => false
  end.

(** ** More vocabulary *)

(** The text of the lines [ls], each ended by [eol]. *)
Fixpoint joinLines (eol : string) (ls : list string) : string :=
  match ls with
  | [] => ""
  | l :: ls' => l ++ eol ++ joinLines eol ls'
  end.

(** The text [name=value] of a record, and the line [k:n1=v1,...,nk=vk] of
    the records of a compound key [k]. *)
Definition renderPair (m : Metric) : string := mKey m ++ "=" ++ mValue m.

Definition renderLine (k : string) (ms : Metrics) : string :=
  k ++ ":" ++ String.concat "," (map renderPair ms).

(** ** The scanner over any [strings.ToLower] and [strings.TrimSpace]

    The loop of [fetchMetrics] calls the two functions on the text of a
    header and nowhere else.  Here they are parameters, so that what is
    proved of the loop holds for Go's functions on every text, not only on
    ASCII text where they are [ToLower] and [TrimSpace] above. *)

Section AnyNormalisation.

Variable strings_ToLower : string -> string.
Variable strings_TrimSpace : string -> string.

Definition scanLineWith (st : string * Metrics) (line : string)
  : string * Metrics :=
  let '(s, ms) := st in
  if (String.length line =? 0)%nat then (s, ms)
  else if HasPrefix line "#"
  then (strings_ToLower (strings_TrimSpace (TrimPrefix line "#")), ms)
  else
    let '(mms, _) := parseLine s line in
    (s, fold_left append mms ms).

Definition fetchMetricsWith (conn : redis.Conn) : Metrics * option error :=
  let ms : Metrics := [] in
  let s := "" in
  let '(reply, err) := redis.Do conn "INFO" ["ALL"] in
  match err with
  | Some e => (ms, Some e)
  | None =>
      let '(blob, err) := redis.Bytes reply err in
      match err with
      | Some e => (ms, Some e)
      | None =>
          let '(_, ms) := fold_left scanLineWith (bufio.Scan blob) (s, ms) in
          (ms, None)
      end
  end.

(** The section after one more line, and after the lines [pre]. *)
Definition nextSectionWith (s line : string) : string :=
  if HasPrefix line "#"
  then strings_ToLower (strings_TrimSpace (TrimPrefix line "#"))
  else s.

Definition sectionFromWith (s : string) (pre : list string) : string :=
  fold_left nextSectionWith pre s.

(** The section the specification gives to a record found after the lines
    [pre]. *)
Definition sectionAfterWith (pre : list string) : string :=
  match lastHeader pre with
  | Some h => strings_ToLower (strings_TrimSpace (TrimPrefix h "#"))
  | None => ""
  end.

End AnyNormalisation.

(** ** What lowercase and trimmed mean on ASCII text *)

(** A text of ASCII bytes only. *)
Fixpoint isASCII (s : string) : bool :=
  match s with
  | EmptyString => true
  | String c s' => (nat_of_ascii c <? 128)%nat && isASCII s'
  end.

(** A text of white space only. *)
Fixpoint allSpace (s : string) : bool :=
  match s with
  | EmptyString => true
  | String c s' => isSpace c && allSpace s'
  end.

Fixpoint lastByte (s : string) : option ascii :=
  match s with
  | EmptyString => None
  | String c s' =>
      match lastByte s' with
      | Some d => Some d
      | None => Some c
      end
  end.

(** [y] is [x] without the white space at its two ends: [x] is [y] between
    two runs of white space, and [y] neither begins nor ends with white
    space. *)
Definition trimmedFrom (x y : string) : Prop :=
  exists l r,
    x = l ++ y ++ r /\ allSpace l = true /\ allSpace r = true /\
    match y with
    | EmptyString => True
    | String c _ => isSpace c = false
    end /\
    match lastByte y with
    | None => True
    | Some c => isSpace c = false
    end.

(** [d] is the byte [c] in lower case: the byte 32 above for an upper-case
    letter [A] to [Z], the byte itself otherwise. *)
Definition lowerByte (c d : ascii) : Prop :=
  (65 <= nat_of_ascii c <= 90 -> nat_of_ascii d = nat_of_ascii c + 32) /\
  (~ 65 <= nat_of_ascii c <= 90 -> d = c).

(** [z] is [y] in lower case, byte by byte. *)
Definition loweredFrom (y z : string) : Prop :=
  Forall2 lowerByte (list_ascii_of_string y) (list_ascii_of_string z).

(** * Facts about the [strings] functions *)

Section StringFacts.

Lemma app_assoc_s (a b c : string) : (a ++ b) ++ c = a ++ (b ++ c).
Proof.
  induction a as [|x a IH]; simpl; [reflexivity | now rewrite IH].
Qed.

Lemma app_empty_r (a : string) : a ++ "" = a.
Proof.
  induction a as [|x a IH]; simpl; [reflexivity | now rewrite IH].
Qed.

Lemma Count_app (a b : string) (c : ascii) :
  Count (a ++ b) c = Count a c + Count b c.
Proof.
  induction a as [|x a IH]; simpl; [reflexivity | rewrite IH; lia].
Qed.

(** [Cut] finds the first separator. *)
Lemma Cut_Some (s : string) (c : ascii) (a b : string) :
  Cut s c = Some (a, b) -> s = a ++ String c b /\ Count a c = 0.
Proof.
  revert a b; induction s as [|x s IH]; simpl; intros a b H; [discriminate|].
  destruct (Ascii.eqb x c) eqn:E.
  - apply Ascii.eqb_eq in E; subst x. now inversion H.
  - destruct (Cut s c) as [[a' b']|]; [|discriminate].
    inversion H; subst a b; clear H.
    destruct (IH a' b' eq_refl) as [-> Hc].
    simpl. rewrite E. now split.
Qed.

Lemma Cut_app (a b : string) (c : ascii) :
  Count a c = 0 -> Cut (a ++ String c b) c = Some (a, b).
Proof.
  induction a as [|x a IH]; simpl; intros H.
  - now rewrite Ascii.eqb_refl.
  - destruct (Ascii.eqb x c); [discriminate|].
    now rewrite IH.
Qed.

Lemma Cut_None (s : string) (c : ascii) :
  Cut s c = None <-> Count s c = 0.
Proof.
  induction s as [|x s IH]; simpl; [tauto|].
  destruct (Ascii.eqb x c); simpl.
  - split; discriminate.
  - destruct (Cut s c) as [[a b]|]; split; intros H;
      try discriminate; try reflexivity; try (apply IH; reflexivity).
    apply IH in H. discriminate.
Qed.

(** A text with a separator splits at the first one. *)
Lemma first_sep (s : string) (c : ascii) :
  0 < Count s c -> exists a b, s = a ++ String c b /\ Count a c = 0.
Proof.
  intros H. destruct (Cut s c) as [[a b]|] eqn:E.
  - exists a, b. now apply Cut_Some.
  - apply Cut_None in E. lia.
Qed.

Lemma SplitN_2 (s : string) (c : ascii) :
  SplitN s c 2 =
  match Cut s c with Some (a, b) => [a; b] | None => [s] end.
Proof.
  simpl. now destruct (Cut s c) as [[a b]|].
Qed.

Lemma SplitN_not_nil (s : string) (c : ascii) (n : nat) :
  SplitN s c (S n) <> [].
Proof.
  destruct n; simpl; [discriminate|].
  destruct (Cut s c) as [[a b]|]; discriminate.
Qed.

Lemma Split_no_sep (s : string) (c : ascii) :
  Count s c = 0 -> Split s c = [s].
Proof.
  unfold Split. intros ->. reflexivity.
Qed.

Lemma Split_first (a b : string) (c : ascii) :
  Count a c = 0 -> Split (a ++ String c b) c = a :: Split b c.
Proof.
  intros H. unfold Split. rewrite Count_app, H. simpl Count.
  rewrite Ascii.eqb_refl.
  replace (0 + (1 + Count b c) + 1) with (S (S (Count b c))) by lia.
  replace (Count b c + 1) with (S (Count b c)) by lia.
  change (SplitN (a ++ String c b) c (S (S (Count b c)))) with
    (match Cut (a ++ String c b) c with
     | Some (x, y) => x :: SplitN y c (S (Count b c))
     | None => [a ++ String c b]
     end).
  now rewrite Cut_app.
Qed.

(** Joining candidates that hold no separator and splitting again gives the
    candidates back; the empty list joins to the empty text, which splits
    into one empty candidate. *)
Lemma Split_concat (c : ascii) (cs : list string) :
  Forall (fun x => Count x c = 0) cs ->
  Split (String.concat (String c "") cs) c =
  match cs with [] => [""] | _ => cs end.
Proof.
  induction 1 as [|x cs Hx Hcs IH]; [reflexivity|].
  destruct cs as [|y cs].
  - simpl. now apply Split_no_sep.
  - change (String.concat (String c "") (x :: y :: cs)) with
      (x ++ String c (String.concat (String c "") (y :: cs))).
    rewrite Split_first by assumption. now rewrite IH.
Qed.

(** Splitting loses no byte: joining the parts gives the text back. *)
Lemma concat_SplitN (c : ascii) (n : nat) (s : string) :
  String.concat (String c "") (SplitN s c (S n)) = s.
Proof.
  revert s; induction n as [|n IH]; intros s; [reflexivity|].
  change (SplitN s c (S (S n))) with
    (match Cut s c with
     | Some (x, y) => x :: SplitN y c (S n)
     | None => [s]
     end).
  destruct (Cut s c) as [[a b]|] eqn:E; [|reflexivity].
  apply Cut_Some in E as [-> _].
  specialize (IH b).
  destruct (SplitN b c (S n)) as [|y ys] eqn:Ey.
  - now apply SplitN_not_nil in Ey.
  - change (String.concat (String c "") (a :: y :: ys)) with
      (a ++ String c (String.concat (String c "") (y :: ys))).
    now rewrite IH.
Qed.

Lemma concat_Split (c : ascii) (s : string) :
  String.concat (String c "") (Split s c) = s.
Proof.
  unfold Split. replace (Count s c + 1) with (S (Count s c)) by lia.
  apply concat_SplitN.
Qed.

End StringFacts.

(** * The field parser and the expander *)

Section ParserFacts.

Lemma fold_append (l acc : Metrics) : fold_left append l acc = (acc ++ l)%list.
Proof.
  revert acc; induction l as [|m l IH]; intros acc; simpl.
  - now rewrite app_nil_r.
  - rewrite IH. unfold append. now rewrite <- app_assoc.
Qed.

(** The loop of [parseKVLine] makes each candidate's records in turn. *)
Lemma parseKVLine_candidates (section prefix v : string) :
  parseKVLine section prefix v =
  flat_map (expandPair section prefix) (Split v ",").
Proof.
  unfold parseKVLine.
  rewrite <- (app_nil_l (flat_map _ _)).
  generalize (@nil Metric) as acc.
  induction (Split v ",") as [|pair parts IH]; intros acc.
  - simpl. now rewrite app_nil_r.
  - cbn [fold_left flat_map]. rewrite IH. rewrite SplitN_2.
    unfold expandPair.
    destruct (Cut pair "=") as [[name value]|]; simpl.
    + unfold append. now rewrite <- app_assoc.
    + reflexivity.
Qed.

(** [parseLine] by cases: header, no colon, expandable key, plain key. *)
Lemma parseLine_cases (section line : string) :
  parseLine section line =
  if HasPrefix line "#" then ([], None)
  else match Cut line ":" with
       | None => ([], Some (errorString "expected 2 parts, got 1"))
       | Some (k, v) =>
           if expandable k
           then (flat_map (expandPair section k) (Split v ","), None)
           else ([mkMetric section "" k v], None)
       end.
Proof.
  unfold parseLine.
  destruct (HasPrefix line "#"); [reflexivity|].
  rewrite SplitN_2.
  destruct (Cut line ":") as [[k v]|]; [|reflexivity].
  cbn [List.length Nat.eqb negb nth]. fold (expandable k).
  destruct (expandable k); [|reflexivity].
  now rewrite fold_append, parseKVLine_candidates.
Qed.

Lemma expandable_not_header (k v : string) :
  expandable k = true -> HasPrefix (k ++ ":" ++ v) "#" = false.
Proof.
  unfold expandable. destruct k as [|x k]; [discriminate|].
  simpl. destruct (Ascii.eqb x "#") eqn:E; [|reflexivity].
  apply Ascii.eqb_eq in E; subst x. discriminate.
Qed.

Lemma expandable_not_empty (k : string) : expandable k = true -> k <> "".
Proof. intros H ->. discriminate. Qed.

(** Every record of a line carries the section the parser was given. *)
Lemma expandPair_section (section prefix cand : string) (r : Metric) :
  In r (expandPair section prefix cand) ->
  mSection r = section /\ mPrefix r = prefix /\
  cand = mKey r ++ "=" ++ mValue r.
Proof.
  unfold expandPair. destruct (Cut cand "=") as [[name value]|] eqn:E.
  - intros [<-|[]]. apply Cut_Some in E as [-> _]. now simpl.
  - intros [].
Qed.

Lemma parseLine_section (section line : string) (r : Metric) :
  In r (fst (parseLine section line)) -> mSection r = section.
Proof.
  rewrite parseLine_cases.
  destruct (HasPrefix line "#"); [intros []|].
  destruct (Cut line ":") as [[k v]|]; [|intros []].
  destruct (expandable k); simpl.
  - rewrite in_flat_map. intros (cand & _ & H).
    now apply expandPair_section in H.
  - now intros [<-|[]].
Qed.

End ParserFacts.

(** * The line scanner of [bufio] *)

Section LineFacts.

Import bufio.

(** [rawLines] follows [ScanLines]: cut at the first line feed if there is
    one, else the rest is the last line unless it is empty. *)
Lemma rawLines_ScanLines (data : string) :
  rawLines data =
  match Cut data LF with
  | Some (line, rest) => line :: rawLines rest
  | None => if (String.length data =? 0)%nat then [] else [data]
  end.
Proof.
  induction data as [|c data IH]; [reflexivity|].
  simpl. destruct (Ascii.eqb c LF); [reflexivity|].
  rewrite IH. destruct (Cut data LF) as [[line rest]|]; [reflexivity|].
  now destruct data.
Qed.

Lemma rawLines_not_nil (c : ascii) (t : string) : rawLines (String c t) <> [].
Proof.
  simpl. destruct (Ascii.eqb c LF); [discriminate|].
  destruct (rawLines t); discriminate.
Qed.

Lemma rawLines_cons (c : ascii) (t : string) :
  rawLines (String c t) =
  if Ascii.eqb c LF then "" :: rawLines t
  else match rawLines t with
       | [] => [String c ""]
       | l :: ls => String c l :: ls
       end.
Proof. reflexivity. Qed.

Lemma rawLines_app (t1 t2 : string) :
  lineStart t1 = true -> rawLines (t1 ++ t2) = (rawLines t1 ++ rawLines t2)%list.
Proof.
  induction t1 as [|c t1 IH]; [reflexivity|].
  destruct t1 as [|d t1].
  - cbn [lineStart]. intros H. cbn [String.append rawLines]. now rewrite H.
  - intros H. change (lineStart (String d t1) = true) in H.
    specialize (IH H).
    change (String c (String d t1) ++ t2) with (String c (String d t1 ++ t2)).
    rewrite (rawLines_cons c (String d t1 ++ t2)), IH.
    rewrite (rawLines_cons c (String d t1)).
    destruct (Ascii.eqb c LF); [reflexivity|].
    pose proof (rawLines_not_nil d t1) as Hne.
    destruct (rawLines (String d t1)); [contradiction|reflexivity].
Qed.

Lemma rawLines_line (line t2 : string) :
  Count line LF = 0 -> rawLines (line ++ nl ++ t2) = line :: rawLines t2.
Proof.
  induction line as [|c line IH]; intros H.
  - reflexivity.
  - simpl in H. cbn [String.append rawLines].
    destruct (Ascii.eqb c LF); [discriminate|].
    fold (rawLines (line ++ nl ++ t2)). now rewrite IH.
Qed.

Lemma rawLines_blankLines (ends : list bool) (t2 : string) :
  rawLines (blankLines ends ++ t2) =
  (map (fun b : bool => if b then String CR "" else "") ends ++ rawLines t2)%list.
Proof.
  induction ends as [|b ends IH]; [reflexivity|].
  cbn [blankLines map]. rewrite app_assoc_s.
  destruct b.
  - change (crlf ++ blankLines ends ++ t2) with
      (String CR "" ++ nl ++ (blankLines ends ++ t2)).
    rewrite rawLines_line by reflexivity. now rewrite IH.
  - change (nl ++ blankLines ends ++ t2) with
      ("" ++ nl ++ (blankLines ends ++ t2)).
    rewrite rawLines_line by reflexivity. now rewrite IH.
Qed.

(** Ending an unfinished last line adds no line; after a finished line it
    adds an empty one. *)
Lemma rawLines_end (t : string) :
  rawLines (t ++ nl) =
  if lineStart t then (rawLines t ++ [""])%list else rawLines t.
Proof.
  induction t as [|c t IH]; [reflexivity|].
  destruct t as [|d t].
  - simpl. now destruct (Ascii.eqb c LF).
  - change (lineStart (String c (String d t))) with (lineStart (String d t)).
    change (String c (String d t) ++ nl) with (String c (String d t ++ nl)).
    rewrite (rawLines_cons c (String d t ++ nl)), IH.
    rewrite (rawLines_cons c (String d t)).
    pose proof (rawLines_not_nil d t) as Hne.
    destruct (lineStart (String d t)), (Ascii.eqb c LF); try reflexivity.
    destruct (rawLines (String d t)); [contradiction|reflexivity].
Qed.

(** [dropCR] removes at most a final carriage return. *)
Lemma dropCR_cases (l : string) :
  dropCR l = l \/ l = dropCR l ++ String CR "".
Proof.
  induction l as [|c l IH]; [now left|].
  destruct l as [|d l].
  - simpl. destruct (Ascii.eqb c CR) eqn:E; [|now left].
    apply Ascii.eqb_eq in E; subst c. now right.
  - change (dropCR (String c (String d l))) with
      (String c (dropCR (String d l))).
    destruct IH as [->|IH]; [now left|].
    right.
    change (String c (String d l) =
            String c (dropCR (String d l) ++ String CR "")).
    now f_equal.
Qed.

Lemma dropCR_malformed (l : string) : malformed l -> malformed (dropCR l).
Proof.
  intros [Hh Hc]. destruct (dropCR_cases l) as [->|E]; [now split|].
  rewrite E in Hh, Hc. rewrite Count_app in Hc. split; [|lia].
  destruct (dropCR l) as [|x d]; [reflexivity|exact Hh].
Qed.

Lemma takeWhile_stop {A : Type} (p : A -> bool) (l1 l2 : list A) (x : A) :
  p x = false -> takeWhile p (l1 ++ x :: l2) = takeWhile p l1.
Proof.
  intros Hx. induction l1 as [|a l1 IH]; simpl.
  - now rewrite Hx.
  - destruct (p a); [now rewrite IH | reflexivity].
Qed.

Lemma length_Repeat1 (c : ascii) (n : nat) :
  String.length (Repeat (String c "") n) = n.
Proof. induction n as [|n IH]; simpl; [reflexivity | now rewrite IH]. Qed.

Lemma Count_Repeat1 (c sep : ascii) (n : nat) :
  Ascii.eqb c sep = false -> Count (Repeat (String c "") n) sep = 0.
Proof.
  intros H. induction n as [|n IH]; simpl; [reflexivity | now rewrite H].
Qed.

Lemma longLine_too_long : fits longLine = false.
Proof.
  unfold fits, longLine. rewrite length_Repeat1, N2Nat.id.
  apply N.ltb_irrefl.
Qed.

End LineFacts.

(** * The loop of [fetchMetrics] *)

Section ScannerFacts.

Import bufio.

(** One turn of the loop: the section moves on a header, and the records
    of the line (none for an empty line, a header or a malformed line) are
    appended. *)
Lemma scanLine_step (s : string) (ms : Metrics) (line : string) :
  scanLine (s, ms) line =
  (nextSection s line, (ms ++ fst (parseLine s line))%list).
Proof.
  unfold scanLine, nextSection.
  destruct line as [|c line].
  - simpl. now rewrite app_nil_r.
  - cbn [String.length Nat.eqb].
    destruct (HasPrefix (String c line) "#") eqn:E.
    + unfold parseLine. rewrite E. simpl. now rewrite app_nil_r.
    + destruct (parseLine s (String c line)) as [mms err].
      now rewrite fold_append.
Qed.

Lemma scanLoop_records (lines : list string) (s : string) (ms : Metrics) :
  fold_left scanLine lines (s, ms) =
  (sectionFrom s lines, (ms ++ scanRecords s lines)%list).
Proof.
  revert s ms; induction lines as [|line lines IH]; intros s ms.
  - simpl. now rewrite app_nil_r.
  - cbn [fold_left scanRecords sectionFrom].
    rewrite scanLine_step, IH. unfold sectionFrom. now rewrite app_assoc.
Qed.

(** When the read succeeds, [fetchMetrics] returns the records of the
    lines of the text, and no error. *)
Lemma fetchMetrics_fetched (conn : redis.Conn) (blob : string) :
  fetched conn = (blob, None) ->
  fetchMetrics conn = (scanRecords "" (Scan blob), None).
Proof.
  unfold fetched, fetchMetrics.
  destruct (redis.Do conn "INFO" ["ALL"]) as [reply [e|]].
  - discriminate.
  - intros ->. now rewrite scanLoop_records.
Qed.

Lemma fetchMetrics_replying (blob : string) :
  fetchMetrics (replying blob) = (scanRecords "" (Scan blob), None).
Proof. now apply fetchMetrics_fetched. Qed.

(** The only errors of [fetchMetrics] are those of the read. *)
Lemma fetchMetrics_error (conn : redis.Conn) :
  snd (fetchMetrics conn) = snd (fetched conn).
Proof.
  unfold fetched, fetchMetrics.
  destruct (redis.Do conn "INFO" ["ALL"]) as [reply [e|]]; [reflexivity|].
  destruct (redis.Bytes reply None) as [blob [e|]]; [reflexivity|].
  now rewrite scanLoop_records.
Qed.

Lemma malformed_silent (s line : string) :
  malformed line -> nextSection s line = s /\ fst (parseLine s line) = [].
Proof.
  intros [Hh Hc]. unfold nextSection. rewrite parseLine_cases, Hh.
  apply Cut_None in Hc. now rewrite Hc.
Qed.

(** Lines that fit the buffer and are malformed once their carriage return
    is dropped can be taken out of the text's lines. *)
Lemma scanRecords_skip (A B C : list string) (s : string) :
  Forall (fun b => fits b = true /\ malformed (dropCR b)) B ->
  scanRecords s (map dropCR (takeWhile fits (A ++ B ++ C))) =
  scanRecords s (map dropCR (takeWhile fits (A ++ C))).
Proof.
  intros HB. revert s. induction A as [|a A IH]; intros s.
  - cbn [app]. induction HB as [|b B [Hf Hm] _ IHB]; [reflexivity|].
    cbn [app takeWhile]. rewrite Hf. cbn [map scanRecords].
    destruct (malformed_silent s _ Hm) as [-> ->]. exact IHB.
  - cbn [app takeWhile]. destruct (fits a); [|reflexivity].
    cbn [map scanRecords]. now rewrite IH.
Qed.

(** The section the loop has reached is the one the specification names. *)
Lemma sectionFrom_lastHeader (pre : list string) (s : string) :
  sectionFrom s pre =
  match lastHeader pre with
  | Some h => ToLower (TrimSpace (TrimPrefix h "#"))
  | None => s
  end.
Proof.
  unfold sectionFrom. revert s; induction pre as [|l pre IH]; intros s.
  - reflexivity.
  - cbn [fold_left lastHeader]. rewrite IH.
    destruct (lastHeader pre); [reflexivity|].
    unfold nextSection. now destruct (HasPrefix l "#").
Qed.

Lemma sectionFrom_sectionAfter (pre : list string) :
  sectionFrom "" pre = sectionAfter pre.
Proof. apply sectionFrom_lastHeader. Qed.

(** Every record of a scan comes from one line, parsed under the section
    reached at that line. *)
Lemma scanRecords_origin (lines : list string) (s : string) (r : Metric) :
  In r (scanRecords s lines) ->
  exists pre line post,
    lines = (pre ++ line :: post)%list /\
    In r (fst (parseLine (sectionFrom s pre) line)).
Proof.
  revert s; induction lines as [|l lines IH]; intros s; [intros []|].
  cbn [scanRecords]. rewrite in_app_iff. intros [H|H].
  - exists [], l, lines. now split.
  - destruct (IH _ H) as (pre & line & post & -> & Hr).
    exists (l :: pre), line, post. now split.
Qed.

(** A line that yields a record is neither empty nor a header, and has a
    colon. *)
Lemma parseLine_record (section line : string) (r : Metric) :
  In r (fst (parseLine section line)) ->
  HasPrefix line "#" = false /\
  exists k v, Cut line ":" = Some (k, v).
Proof.
  rewrite parseLine_cases.
  destruct (HasPrefix line "#"); [intros []|].
  destruct (Cut line ":") as [[k v]|]; [|intros []].
  intros _. split; [reflexivity|]. now exists k, v.
Qed.

End ScannerFacts.

(** * The field parser: plain lines, malformed lines, expansion *)

Section FieldParser.

Import bufio.

(** C1, amended: for every line that does not begin with [#] and has at
    least one colon, whose key (the text before the first colon) starts
    neither with [cmdstat_] nor with [db], [parseLine] returns exactly one
    record and no error: the record has the given section, the empty
    prefix, the key, and as value the whole rest after the first colon,
    further colons included. *)
Theorem parseLine_plain (section k v : string) :
  Count k ":" = 0 ->
  HasPrefix (k ++ ":" ++ v) "#" = false ->
  HasPrefix k "cmdstat_" = false ->
  HasPrefix k "db" = false ->
  parseLine section (k ++ ":" ++ v) = ([mkMetric section "" k v], None).
Proof.
  intros Hk Hh Hc Hd. rewrite parseLine_cases, Hh.
  change (k ++ ":" ++ v) with (k ++ String ":" v).
  rewrite Cut_app by assumption.
  unfold expandable. now rewrite Hc, Hd.
Qed.

Lemma parseLine_plain_witness :
  parseLine "server" "role:master:x:y" =
  ([mkMetric "server" "" "role" "master:x:y"], None).
Proof.
  apply (parseLine_plain "server" "role" "master:x:y"); reflexivity.
Defined.

(** C1 as it was stated fails on a line that begins with [#]: the line
    [#a:b] has a colon and its key [#a] starts neither with [cmdstat_] nor
    with [db], yet the guard of [parseLine] returns no record. *)
Lemma parseLine_plain_counterexample :
  0 < Count "#a:b" ":" /\
  "#a:b" = "#a" ++ ":" ++ "b" /\ Count "#a" ":" = 0 /\
  HasPrefix "#a" "cmdstat_" = false /\ HasPrefix "#a" "db" = false /\
  parseLine "server" "#a:b" = ([], None) /\
  forall m, fst (parseLine "server" "#a:b") <> [m].
Proof.
  repeat split; try reflexivity; try (simpl; lia).
  intros m. simpl. discriminate.
Qed.

(** C2, amended: for every line without a colon that does not begin with
    [#], [parseLine] returns an error and no record; the loop of the
    Scanner leaves its section and its records as they are, and the scan of
    a text gives the same records with or without such a line (the line
    being short enough for the Scanner's buffer). *)
Theorem malformed_line_skipped (section line t1 t2 : string) :
  Count line ":" = 0 ->
  HasPrefix line "#" = false ->
  Count line LF = 0 ->
  fits line = true ->
  lineStart t1 = true ->
  parseLine section line =
    ([], Some (errorString "expected 2 parts, got 1")) /\
  (forall s ms, scanLine (s, ms) line = (s, ms)) /\
  fetchMetrics (replying (t1 ++ line ++ nl ++ t2)) =
  fetchMetrics (replying (t1 ++ t2)).
Proof.
  intros Hc Hh Hl Hf Ht.
  assert (Hm : malformed line) by now split.
  split; [|split].
  - rewrite parseLine_cases, Hh. apply Cut_None in Hc. now rewrite Hc.
  - intros s ms. rewrite scanLine_step.
    destruct (malformed_silent s line Hm) as [-> ->].
    now rewrite app_nil_r.
  - rewrite !fetchMetrics_replying. f_equal. unfold Scan.
    rewrite (rawLines_app t1 t2), (rawLines_app t1 (line ++ nl ++ t2))
      by assumption.
    rewrite rawLines_line by assumption.
    apply (scanRecords_skip (rawLines t1) [line] (rawLines t2)).
    constructor; [|constructor]. split; [assumption|].
    now apply dropCR_malformed.
Qed.

Lemma malformed_line_skipped_witness :
  parseLine "server" "junk" =
    ([], Some (errorString "expected 2 parts, got 1")) /\
  (forall s ms, scanLine (s, ms) "junk" = (s, ms)) /\
  fetchMetrics (replying ("a:1" ++ nl ++ "junk" ++ nl ++ "b:2")) =
  fetchMetrics (replying ("a:1" ++ nl ++ "b:2")).
Proof.
  apply (malformed_line_skipped "server" "junk" ("a:1" ++ nl) "b:2");
    reflexivity.
Defined.

(** C2 as it was stated fails on a line with more than one colon: the line
    [a:b:c] is cut at its first colon only and gives a record and no error.
    A header line without a colon gives no error either.  And after a line
    without a colon that is too long for the Scanner's buffer the scan
    stops: the record of the next line is lost. *)
Lemma malformed_line_counterexample :
  (Count "a:b:c" ":" = 2 /\
   parseLine "server" "a:b:c" = ([mkMetric "server" "" "a" "b:c"], None) /\
   fetchMetrics (replying "a:b:c") = ([mkMetric "" "" "a" "b:c"], None)) /\
  (Count "#abc" ":" = 0 /\
   parseLine "server" "#abc" = ([], None)) /\
  (Count longLine ":" = 0 /\
   fetchMetrics (replying (("a:1" ++ nl) ++ longLine ++ nl ++ "b:2")) =
     ([mkMetric "" "" "a" "1"], None) /\
   fetchMetrics (replying (("a:1" ++ nl) ++ "b:2")) =
     ([mkMetric "" "" "a" "1"; mkMetric "" "" "b" "2"], None)).
Proof.
  split; [|split]; [repeat split | repeat split |].
  assert (HL : Count longLine LF = 0) by now apply Count_Repeat1.
  split; [now apply Count_Repeat1|]. split; [|reflexivity].
  rewrite fetchMetrics_replying. unfold Scan.
  rewrite rawLines_app by reflexivity.
  rewrite rawLines_line by exact HL.
  rewrite takeWhile_stop by exact longLine_too_long.
  reflexivity.
Qed.

End FieldParser.

(** * The sub-format expander *)

Section Expander.

Lemma expandPair_pair (section prefix name value : string) :
  Count name "=" = 0 ->
  expandPair section prefix (name ++ "=" ++ value) =
  [mkMetric section prefix name value].
Proof.
  intros H. unfold expandPair.
  change (name ++ "=" ++ value) with (name ++ String "=" value).
  now rewrite Cut_app.
Qed.

Lemma expandPair_bad (section prefix cand : string) :
  Count cand "=" = 0 -> expandPair section prefix cand = [].
Proof.
  intros H. unfold expandPair. apply Cut_None in H. now rewrite H.
Qed.

Lemma expand_joined (section prefix : string) (cands : list string) :
  Forall (fun c => Count c "," = 0) cands ->
  parseKVLine section prefix (String.concat "," cands) =
  flat_map (expandPair section prefix) cands.
Proof.
  intros H. rewrite parseKVLine_candidates.
  change "," with (String "," "") at 1. rewrite Split_concat by assumption.
  now destruct cands.
Qed.

Lemma expand_pairs (section prefix : string) (pairs : list (string * string)) :
  Forall (fun p => Count (fst p) "=" = 0) pairs ->
  flat_map (expandPair section prefix) (map pairText pairs) =
  map (fun p => mkMetric section prefix (fst p) (snd p)) pairs.
Proof.
  induction 1 as [|[name value] pairs Hp _ IH]; [reflexivity|].
  cbn [map flat_map]. unfold pairText at 1. cbn [fst snd] in *.
  rewrite expandPair_pair by assumption. now rewrite IH.
Qed.

Lemma parseLine_expandable (section k v : string) :
  Count k ":" = 0 ->
  expandable k = true ->
  parseLine section (k ++ ":" ++ v) = (parseKVLine section k v, None).
Proof.
  intros Hk He. rewrite parseLine_cases.
  rewrite expandable_not_header by assumption.
  change (k ++ ":" ++ v) with (k ++ String ":" v).
  rewrite Cut_app by assumption.
  now rewrite He, parseKVLine_candidates.
Qed.

(** C3, amended: for every line [K:n1=v1,...,nk=vk] whose key [K] starts
    with [cmdstat_] (the names holding no comma and no equals sign, the
    values no comma), the expander yields one record per pair, with prefix
    [K], key [ni] and value [vi], in the order of the pairs in the value;
    and for every value the records are those of its comma-separated
    candidates, in their order.  Nothing is trimmed: a space after the
    colon belongs to the first name. *)
Theorem expand_in_order (section k : string) (pairs : list (string * string)) :
  Count k ":" = 0 ->
  HasPrefix k "cmdstat_" = true ->
  Forall (fun p => Count (fst p) "," = 0 /\ Count (fst p) "=" = 0 /\
                   Count (snd p) "," = 0) pairs ->
  parseLine section (k ++ ":" ++ String.concat "," (map pairText pairs)) =
    (map (fun p => mkMetric section k (fst p) (snd p)) pairs, None) /\
  parseKVLine section k (String.concat "," (map pairText pairs)) =
    map (fun p => mkMetric section k (fst p) (snd p)) pairs /\
  forall v, parseKVLine section k v =
            flat_map (expandPair section k) (Split v ",").
Proof.
  intros Hk Hc Hp.
  assert (He : expandable k = true) by (unfold expandable; now rewrite Hc).
  assert (Hkv : parseKVLine section k (String.concat "," (map pairText pairs)) =
                map (fun p => mkMetric section k (fst p) (snd p)) pairs).
  { rewrite expand_joined.
    - apply expand_pairs. eapply Forall_impl; [|exact Hp].
      now intros p (_ & H & _).
    - apply Forall_map. eapply Forall_impl; [|exact Hp].
      intros [name value] (H1 & _ & H3). unfold pairText. cbn [fst snd] in *.
      rewrite !Count_app, H1, H3. reflexivity. }
  split; [|split].
  - rewrite parseLine_expandable by assumption. now rewrite Hkv.
  - exact Hkv.
  - intros v. apply parseKVLine_candidates.
Qed.

Lemma expand_in_order_witness :
  parseLine "commandstats" "cmdstat_X:a=1,b=2" =
    ([mkMetric "commandstats" "cmdstat_X" "a" "1";
      mkMetric "commandstats" "cmdstat_X" "b" "2"], None) /\
  parseKVLine "commandstats" "cmdstat_X" "a=1,b=2" =
    [mkMetric "commandstats" "cmdstat_X" "a" "1";
     mkMetric "commandstats" "cmdstat_X" "b" "2"] /\
  forall v, parseKVLine "commandstats" "cmdstat_X" v =
            flat_map (expandPair "commandstats" "cmdstat_X") (Split v ",").
Proof.
  apply (expand_in_order "commandstats" "cmdstat_X" [("a", "1"); ("b", "2")]).
  - reflexivity.
  - reflexivity.
  - repeat constructor.
Defined.

(** C3 as it was stated fails on its own line [cmdstat_X: a=1,b=2]: the
    space after the colon is kept, so the first record's key is [ a] with
    the space, not [a]. *)
Lemma expand_in_order_counterexample :
  parseLine "commandstats" "cmdstat_X: a=1,b=2" =
    ([mkMetric "commandstats" "cmdstat_X" " a" "1";
      mkMetric "commandstats" "cmdstat_X" "b" "2"], None) /\
  parseKVLine "commandstats" "cmdstat_X" " a=1,b=2" =
    [mkMetric "commandstats" "cmdstat_X" " a" "1";
     mkMetric "commandstats" "cmdstat_X" "b" "2"] /\
  fst (parseLine "commandstats" "cmdstat_X: a=1,b=2") <>
    [mkMetric "commandstats" "cmdstat_X" "a" "1";
     mkMetric "commandstats" "cmdstat_X" "b" "2"].
Proof.
  split; [reflexivity|]. split; [reflexivity|].
  simpl. discriminate.
Qed.

(** C4: a comma-separated candidate without an equals sign is discarded
    without an error, and the records of the candidates before and after
    it are still produced, in order; so the line
    [cmdstat_get: calls=3,badpair,usec=5] gives exactly two records, those
    of [ calls=3] and of [usec=5]. *)
Theorem bad_pair_discarded
  (section k bad : string) (before after : list string) :
  Count k ":" = 0 ->
  expandable k = true ->
  Forall (fun c => Count c "," = 0) (before ++ bad :: after) ->
  Count bad "=" = 0 ->
  parseLine section (k ++ ":" ++ String.concat "," (before ++ bad :: after)) =
    ((flat_map (expandPair section k) before ++
      flat_map (expandPair section k) after)%list, None) /\
  parseLine section (k ++ ":" ++ String.concat "," (before ++ bad :: after)) =
  parseLine section (k ++ ":" ++ String.concat "," (before ++ after)).
Proof.
  intros Hk He Hc Hb.
  assert (Hc' : Forall (fun c => Count c "," = 0) (before ++ after)).
  { apply Forall_app in Hc as [H1 H2]. apply Forall_app. split; [exact H1|].
    now inversion H2. }
  rewrite !parseLine_expandable by assumption.
  rewrite !expand_joined by assumption.
  rewrite !flat_map_app. cbn [flat_map].
  rewrite expandPair_bad by assumption. now split.
Qed.

Lemma bad_pair_discarded_witness :
  parseLine "commandstats" "cmdstat_get: calls=3,badpair,usec=5" =
    ([mkMetric "commandstats" "cmdstat_get" " calls" "3";
      mkMetric "commandstats" "cmdstat_get" "usec" "5"], None) /\
  parseLine "commandstats" "cmdstat_get: calls=3,badpair,usec=5" =
  parseLine "commandstats" "cmdstat_get: calls=3,usec=5".
Proof.
  apply (bad_pair_discarded "commandstats" "cmdstat_get" "badpair"
           [" calls=3"] ["usec=5"]).
  - reflexivity.
  - reflexivity.
  - repeat constructor.
  - reflexivity.
Defined.

(** C10: for every line whose key starts with [cmdstat_] or with [db] and
    whose value has no comma-separated candidate with an equals sign (an
    empty value too), [parseLine] returns no record and no error; so
    [dbsize:10] gives no record at all. *)
Theorem expandable_line_swallowed (section k v : string) :
  Count k ":" = 0 ->
  HasPrefix k "cmdstat_" = true \/ HasPrefix k "db" = true ->
  Forall (fun c => Count c "=" = 0) (Split v ",") ->
  parseLine section (k ++ ":" ++ v) = ([], None).
Proof.
  intros Hk Hp Hv.
  assert (He : expandable k = true).
  { unfold expandable. destruct Hp as [-> | ->]; [reflexivity|].
    apply orb_true_r. }
  rewrite parseLine_expandable by assumption.
  rewrite parseKVLine_candidates. f_equal.
  induction Hv as [|c cs Hc _ IH]; [reflexivity|].
  cbn [flat_map]. now rewrite expandPair_bad, IH.
Qed.

Lemma expandable_line_swallowed_witness :
  parseLine "keyspace" "dbsize:10" = ([], None).
Proof.
  apply (expandable_line_swallowed "keyspace" "dbsize" "10").
  - reflexivity.
  - right. reflexivity.
  - repeat constructor.
Defined.

End Expander.

(** * The section-line scanner *)

Section Scanner.

Import bufio.

(** The section-tracking example of the specification. *)
Example section_tracking :
  fetchMetrics (replying ("#Server" ++ nl ++ "role:master" ++ nl ++
                          "#Clients" ++ nl ++ "connected:4" ++ nl)) =
  ([mkMetric "server" "" "role" "master";
    mkMetric "clients" "" "connected" "4"], None).
Proof. reflexivity. Qed.

Lemma lineStart_end (t : string) : lineStart (t ++ nl) = true.
Proof.
  induction t as [|c t IH]; [reflexivity|].
  destruct t as [|d t]; [reflexivity | exact IH].
Qed.

Lemma blank_raw_lines (ends : list bool) :
  Forall (fun b => fits b = true /\ malformed (dropCR b))
    (map (fun b : bool => if b then String CR "" else "") ends).
Proof.
  apply Forall_map, Forall_forall. intros [|] _; repeat split.
Qed.

(** C6: blank lines (ended by LF or by CR LF) put between two lines of a
    text, before its first line or after its last line leave the records of
    the scan, and their order, as they are. *)
Theorem blank_lines_noop (t1 t2 : string) (ends : list bool) :
  lineStart t1 = true ->
  fetchMetrics (replying (t1 ++ blankLines ends ++ t2)) =
    fetchMetrics (replying (t1 ++ t2)) /\
  fetchMetrics (replying (t2 ++ nl ++ blankLines ends)) =
    fetchMetrics (replying t2).
Proof.
  intros Ht.
  assert (Hmid : forall a b, lineStart a = true ->
            scanRecords "" (Scan (a ++ blankLines ends ++ b)) =
            scanRecords "" (Scan (a ++ b))).
  { intros a b Ha. unfold Scan.
    rewrite (rawLines_app a b), (rawLines_app a (blankLines ends ++ b))
      by assumption.
    rewrite rawLines_blankLines.
    apply scanRecords_skip, blank_raw_lines. }
  split.
  - rewrite !fetchMetrics_replying. f_equal. now apply Hmid.
  - rewrite !fetchMetrics_replying. f_equal.
    rewrite <- (app_empty_r (blankLines ends)), <- app_assoc_s.
    rewrite Hmid by apply lineStart_end.
    rewrite app_empty_r. unfold Scan. rewrite rawLines_end.
    destruct (lineStart t2); [|reflexivity].
    rewrite <- (app_nil_r (rawLines t2)) at 2.
    apply (scanRecords_skip (rawLines t2) [""] []).
    repeat constructor.
Qed.

Lemma blank_lines_noop_witness :
  fetchMetrics (replying (("# Server" ++ crlf) ++
                          blankLines [true; false; true] ++
                          "role:master")) =
    fetchMetrics (replying (("# Server" ++ crlf) ++ "role:master")) /\
  fetchMetrics (replying ("role:master" ++ nl ++
                          blankLines [true; false; true])) =
    fetchMetrics (replying "role:master").
Proof.
  apply (blank_lines_noop ("# Server" ++ crlf) "role:master"
           [true; false; true]).
  reflexivity.
Defined.

(** C7: when the read of the text succeeds, [fetchMetrics] returns no
    error, whatever number of lines fail to parse, and its records are
    those of the lines that parse; so an error of [fetchMetrics] is an error
    of the read. *)
Theorem parse_errors_absorbed (conn : redis.Conn) (blob : string) :
  fetched conn = (blob, None) ->
  snd (fetchMetrics conn) = None /\
  fst (fetchMetrics conn) = scanRecords "" (Scan blob) /\
  snd (fetchMetrics conn) = snd (fetched conn).
Proof.
  intros H. rewrite fetchMetrics_error, H.
  rewrite (fetchMetrics_fetched conn blob H). now repeat split.
Qed.

Lemma parse_errors_absorbed_witness :
  let blob := "junk" ++ nl ++ "role:master" ++ nl ++ "more junk" ++ nl in
  snd (fetchMetrics (replying blob)) = None /\
  fst (fetchMetrics (replying blob)) = scanRecords "" (Scan blob) /\
  snd (fetchMetrics (replying blob)) = snd (fetched (replying blob)).
Proof.
  apply (parse_errors_absorbed
           (replying ("junk" ++ nl ++ "role:master" ++ nl ++ "more junk" ++ nl))).
  reflexivity.
Defined.

End Scanner.

(** * Prefixes and white space *)

Section Records.

Import bufio.

(** C8: every record of a scan comes from a line [k:v] of the text; its
    prefix is non-empty exactly when the key [k] starts with [cmdstat_] or
    with [db], that is when the record was made by the expander, and then
    the prefix is [k]; a record of a plain line is [(section, "", k, v)],
    with the empty prefix. *)
Theorem prefix_iff_expanded (blob : string) (r : Metric) :
  In r (fst (fetchMetrics (replying blob))) ->
  exists line k v,
    In line (Scan blob) /\
    line = k ++ ":" ++ v /\ Count k ":" = 0 /\
    In r (fst (parseLine (mSection r) line)) /\
    (mPrefix r <> "" <-> expandable k = true) /\
    (expandable k = true ->
     mPrefix r = k /\ In r (parseKVLine (mSection r) k v)) /\
    (expandable k = false -> r = mkMetric (mSection r) "" k v).
Proof.
  rewrite fetchMetrics_replying. cbn [fst]. intros H.
  apply scanRecords_origin in H as (pre & line & post & E & Hr).
  pose proof (parseLine_section _ _ _ Hr) as Hs. rewrite <- Hs in Hr.
  destruct (parseLine_record _ _ _ Hr) as (Hh & k & v & Hcut).
  exists line, k, v.
  split; [rewrite E; apply in_elt|].
  destruct (Cut_Some _ _ _ _ Hcut) as [Hline Hk].
  split; [exact Hline|]. split; [exact Hk|]. split; [exact Hr|].
  rewrite parseLine_cases, Hh, Hcut in Hr.
  destruct (expandable k) eqn:He; cbn [fst] in Hr.
  - assert (Hp : mPrefix r = k).
    { apply in_flat_map in Hr as (cand & _ & Hc).
      now apply expandPair_section in Hc. }
    split; [|split].
    + split; [reflexivity|]. intros _. rewrite Hp.
      now apply expandable_not_empty.
    + intros _. split; [exact Hp|]. now rewrite parseKVLine_candidates.
    + discriminate.
  - destruct Hr as [<-|[]]. cbn [mPrefix mSection].
    split; [|split].
    + split; [intros C; now elim C | discriminate].
    + discriminate.
    + reflexivity.
Qed.

Lemma prefix_iff_expanded_witness :
  exists line k v,
    In line (Scan ("# Keyspace" ++ crlf ++ "db0:keys=1,expires=0" ++ crlf)) /\
    line = k ++ ":" ++ v /\ Count k ":" = 0 /\
    In (mkMetric "keyspace" "db0" "expires" "0")
       (fst (parseLine "keyspace" line)) /\
    ("db0" <> "" <-> expandable k = true) /\
    (expandable k = true ->
     "db0" = k /\
     In (mkMetric "keyspace" "db0" "expires" "0")
        (parseKVLine "keyspace" k v)) /\
    (expandable k = false ->
     mkMetric "keyspace" "db0" "expires" "0" = mkMetric "keyspace" "" k v).
Proof.
  apply (prefix_iff_expanded
           ("# Keyspace" ++ crlf ++ "db0:keys=1,expires=0" ++ crlf)
           (mkMetric "keyspace" "db0" "expires" "0")).
  simpl. right. left. reflexivity.
Defined.

(** C9: the field parser and the expander trim nothing.  The key and the
    value of a record of a plain line are the line's text before and after
    its first colon, byte for byte; the name and the value of an expanded
    record are the text before and after the first equals sign of one of
    the value's comma-separated candidates, byte for byte.  So
    [key: value] gives the value [ value] and [cmdstat_get: calls=3] the
    key [ calls], each with its space; only the text of a section header is
    trimmed. *)
Theorem nothing_trimmed (section line : string) (r : Metric) :
  In r (fst (parseLine section line)) ->
  ((mPrefix r = "" /\ line = mKey r ++ ":" ++ mValue r) \/
   (exists v,
      line = mPrefix r ++ ":" ++ v /\
      In (mKey r ++ "=" ++ mValue r) (Split v ",") /\
      String.concat "," (Split v ",") = v)) /\
  parseLine section "key: value" =
    ([mkMetric section "" "key" " value"], None) /\
  parseLine section "cmdstat_get: calls=3" =
    ([mkMetric section "cmdstat_get" " calls" "3"], None) /\
  scanLine (section, []) "#  Server Info  " = ("server info", []) /\
  fetchMetrics (replying ("#  Server Info  " ++ crlf ++ " key : value ")) =
    ([mkMetric "server info" "" " key " " value "], None).
Proof.
  intros Hr. split; [|repeat split].
  destruct (parseLine_record _ _ _ Hr) as (Hh & k & v & Hcut).
  rewrite parseLine_cases, Hh, Hcut in Hr.
  apply Cut_Some in Hcut as [-> _].
  destruct (expandable k); cbn [fst] in Hr.
  - right. exists v.
    apply in_flat_map in Hr as (cand & Hin & Hc).
    apply expandPair_section in Hc as (_ & -> & ->).
    split; [reflexivity|]. split; [exact Hin|].
    apply (concat_Split ","%char).
  - left. destruct Hr as [<-|[]]. now split.
Qed.

Lemma nothing_trimmed_witness :
  ((mPrefix (mkMetric "server" "" " key " " value ") = "" /\
    " key : value " = " key " ++ ":" ++ " value ") \/
   (exists v,
      " key : value " = "" ++ ":" ++ v /\
      In (" key " ++ "=" ++ " value ") (Split v ",") /\
      String.concat "," (Split v ",") = v)) /\
  parseLine "server" "key: value" =
    ([mkMetric "server" "" "key" " value"], None) /\
  parseLine "server" "cmdstat_get: calls=3" =
    ([mkMetric "server" "cmdstat_get" " calls" "3"], None) /\
  scanLine ("server", []) "#  Server Info  " = ("server info", []) /\
  fetchMetrics (replying ("#  Server Info  " ++ crlf ++ " key : value ")) =
    ([mkMetric "server info" "" " key " " value "], None).
Proof.
  apply (nothing_trimmed "server" " key : value "
           (mkMetric "server" "" " key " " value ")).
  simpl. left. reflexivity.
Defined.

End Records.

(** * Further facts about splitting *)

Section SplitFacts.

Lemma SplitN_parts_no_sep (c : ascii) (n : nat) (s : string) :
  Count s c < n -> Forall (fun x => Count x c = 0) (SplitN s c n).
Proof.
  revert s; induction n as [|n IH]; intros s H; [lia|].
  destruct n as [|n].
  - simpl. constructor; [lia | constructor].
  - change (SplitN s c (S (S n))) with
      (match Cut s c with
       | Some (x, y) => x :: SplitN y c (S n)
       | None => [s]
       end).
    destruct (Cut s c) as [[a b]|] eqn:E.
    + apply Cut_Some in E as [-> Ha]. constructor; [exact Ha|].
      apply IH. rewrite Count_app, Ha in H. simpl in H.
      rewrite Ascii.eqb_refl in H. lia.
    + apply Cut_None in E. constructor; [exact E | constructor].
Qed.

Lemma Split_parts_no_sep (c : ascii) (s : string) :
  Forall (fun x => Count x c = 0) (Split s c).
Proof. apply SplitN_parts_no_sep. lia. Qed.

Lemma length_SplitN (c : ascii) (n : nat) (s : string) :
  Count s c < n -> List.length (SplitN s c n) = Count s c + 1.
Proof.
  revert s; induction n as [|n IH]; intros s H; [lia|].
  destruct n as [|n].
  - simpl. lia.
  - change (SplitN s c (S (S n))) with
      (match Cut s c with
       | Some (x, y) => x :: SplitN y c (S n)
       | None => [s]
       end).
    destruct (Cut s c) as [[a b]|] eqn:E.
    + apply Cut_Some in E as [-> Ha].
      rewrite Count_app, Ha in *. simpl in *.
      rewrite Ascii.eqb_refl in *. rewrite IH; lia.
    + apply Cut_None in E. simpl. lia.
Qed.

Lemma length_Split (c : ascii) (s : string) :
  List.length (Split s c) = Count s c + 1.
Proof. apply length_SplitN. lia. Qed.

(** The separators apart, a text's bytes are those of its parts. *)
Lemma Count_concat (sep d : ascii) (cs : list string) :
  list_sum (map (fun x => Count x d) cs) <=
  Count (String.concat (String sep "") cs) d.
Proof.
  induction cs as [|x cs IH]; [simpl; lia|].
  destruct cs as [|y cs].
  - simpl. lia.
  - change (String.concat (String sep "") (x :: y :: cs)) with
      (x ++ String sep (String.concat (String sep "") (y :: cs))).
    rewrite Count_app.
    change (Count (String sep (String.concat (String sep "") (y :: cs))) d)
      with ((if Ascii.eqb sep d then 1 else 0) +
            Count (String.concat (String sep "") (y :: cs)) d).
    change (list_sum (map (fun x0 => Count x0 d) (x :: y :: cs))) with
      (Count x d + list_sum (map (fun x0 => Count x0 d) (y :: cs))).
    destruct (Ascii.eqb sep d); lia.
Qed.

Lemma Count_part (sep d : ascii) (s x : string) :
  In x (Split s sep) -> Count x d <= Count s d.
Proof.
  rewrite <- (concat_Split sep s) at 2.
  generalize (Split s sep) as cs. intros cs H.
  etransitivity; [|apply Count_concat].
  induction cs as [|y ys IH]; [destruct H|].
  change (list_sum (map (fun x0 => Count x0 d) (y :: ys))) with
    (Count y d + list_sum (map (fun x0 => Count x0 d) ys)).
  destruct H as [->|H]; [lia|].
  specialize (IH H). lia.
Qed.

Lemma HasPrefix_app (a b p : string) :
  HasPrefix a p = true -> HasPrefix (a ++ b) p = true.
Proof.
  revert a; induction p as [|x p IH]; intros a; [reflexivity|].
  destruct a as [|y a]; [discriminate|].
  simpl. destruct (Ascii.eqb y x); [apply IH | discriminate].
Qed.

End SplitFacts.

(** * More on the field parser *)

Section ParserExtras.

(** X1: every error of [parseLine] is the error [expected 2 parts, got 1];
    it comes with no record, and only for a line that has no colon and
    does not begin with [#]. *)
Theorem parse_error_only_without_colon (section line : string) (e : error) :
  snd (parseLine section line) = Some e ->
  e = errorString "expected 2 parts, got 1" /\
  fst (parseLine section line) = [] /\
  HasPrefix line "#" = false /\
  Count line ":" = 0.
Proof.
  rewrite parseLine_cases.
  destruct (HasPrefix line "#"); [discriminate|].
  destruct (Cut line ":") as [[k v]|] eqn:E.
  - destruct (expandable k); discriminate.
  - cbn [fst snd]. intros [= <-]. apply Cut_None in E. now repeat split.
Qed.

Lemma parse_error_only_without_colon_witness :
  errorString "expected 2 parts, got 1" =
    errorString "expected 2 parts, got 1" /\
  fst (parseLine "server" "no colon here") = [] /\
  HasPrefix "no colon here" "#" = false /\
  Count "no colon here" ":" = 0.
Proof.
  apply (parse_error_only_without_colon "server" "no colon here").
  reflexivity.
Defined.

Lemma expandPair_render (section prefix cand : string) (r : Metric) :
  In r (expandPair section prefix cand) ->
  r = mkMetric section prefix (mKey r) (mValue r) /\
  cand = renderPair r /\ Count (mKey r) "=" = 0.
Proof.
  unfold expandPair. destruct (Cut cand "=") as [[name value]|] eqn:E.
  - intros [<-|[]]. apply Cut_Some in E as [-> H]. now repeat split.
  - intros [].
Qed.

Lemma reparse_records (section prefix : string) (rs : Metrics) :
  Forall (fun r => r = mkMetric section prefix (mKey r) (mValue r) /\
                   Count (mKey r) "=" = 0) rs ->
  flat_map (expandPair section prefix) (map renderPair rs) = rs.
Proof.
  induction 1 as [|r rs [Hr Hk] _ IH]; [reflexivity|].
  cbn [map flat_map]. unfold renderPair at 1.
  rewrite expandPair_pair by assumption. rewrite IH. now rewrite <- Hr.
Qed.

(** X2: for a line [k:v] with a compound key [k], writing the records back
    as [k:n1=v1,...,nk=vk] and parsing that line again gives the same
    records: the candidates without an equals sign are lost the first
    time, and nothing else ever is. *)
Theorem reparse_rendered (section k v : string) :
  Count k ":" = 0 ->
  expandable k = true ->
  parseLine section
    (renderLine k (fst (parseLine section (k ++ ":" ++ v)))) =
  parseLine section (k ++ ":" ++ v).
Proof.
  intros Hk He. unfold renderLine.
  rewrite !parseLine_expandable by assumption. cbn [fst]. f_equal.
  rewrite expand_joined.
  - apply reparse_records. apply Forall_forall. intros r Hr.
    rewrite parseKVLine_candidates in Hr.
    apply in_flat_map in Hr as (cand & _ & Hc).
    apply expandPair_render in Hc as (H1 & _ & H3). now split.
  - apply Forall_map, Forall_forall. intros r Hr.
    rewrite parseKVLine_candidates in Hr.
    apply in_flat_map in Hr as (cand & Hin & Hc).
    apply expandPair_render in Hc as (_ & <- & _).
    pose proof (Split_parts_no_sep ","%char v) as HF.
    rewrite Forall_forall in HF. now apply HF.
Qed.

Lemma reparse_rendered_witness :
  parseLine "commandstats"
    (renderLine "cmdstat_get"
       (fst (parseLine "commandstats"
               ("cmdstat_get" ++ ":" ++ "calls=3,badpair,usec=5=6")))) =
  parseLine "commandstats" ("cmdstat_get" ++ ":" ++ "calls=3,badpair,usec=5=6").
Proof.
  apply (reparse_rendered "commandstats" "cmdstat_get"
           "calls=3,badpair,usec=5=6"); reflexivity.
Defined.

(** X3: the fields of a record hold none of the separators they were cut
    at.  The key of a plain record has no colon; the prefix of an expanded
    record has no colon, its key neither an equals sign nor a comma, and
    its value no comma. *)
Theorem fields_without_separators (section line : string) (r : Metric) :
  In r (fst (parseLine section line)) ->
  (mPrefix r = "" -> Count (mKey r) ":" = 0) /\
  (mPrefix r <> "" ->
   Count (mPrefix r) ":" = 0 /\
   Count (mKey r) "=" = 0 /\ Count (mKey r) "," = 0 /\
   Count (mValue r) "," = 0).
Proof.
  intros Hr.
  destruct (parseLine_record _ _ _ Hr) as (Hh & k & v & Hcut).
  rewrite parseLine_cases, Hh, Hcut in Hr.
  apply Cut_Some in Hcut as [-> Hk].
  destruct (expandable k) eqn:He; cbn [fst] in Hr.
  - apply in_flat_map in Hr as (cand & Hin & Hc).
    pose proof (expandPair_section _ _ _ _ Hc) as (_ & Hp & _).
    apply expandPair_render in Hc as (_ & Hcand & Hkey).
    pose proof (Split_parts_no_sep ","%char v) as HF.
    rewrite Forall_forall in HF. specialize (HF _ Hin).
    rewrite Hcand in HF. unfold renderPair in HF.
    rewrite !Count_app in HF. rewrite Hp.
    split; [intros ->; discriminate|]. intros _. repeat split; lia.
  - destruct Hr as [<-|[]]. cbn [mPrefix mKey].
    split; [now intros _ | intros C; now elim C].
Qed.

Lemma fields_without_separators_witness :
  (mPrefix (mkMetric "keyspace" "db0" "a:b" "1:2=3") = "" ->
   Count "a:b" ":" = 0) /\
  ("db0" <> "" ->
   Count "db0" ":" = 0 /\
   Count "a:b" "=" = 0 /\ Count "a:b" "," = 0 /\
   Count "1:2=3" "," = 0).
Proof.
  apply (fields_without_separators "keyspace" "db0:x=y,a:b=1:2=3"
           (mkMetric "keyspace" "db0" "a:b" "1:2=3")).
  simpl. right. left. reflexivity.
Defined.

(** X4: a line gives at most one record per comma-separated part: the
    number of records of [parseLine] is at most the number of commas of the
    line plus one.  The expander gives at most one record per candidate and
    at most one per equals sign of the value. *)
Theorem record_count_bound (section prefix line v : string) :
  List.length (fst (parseLine section line)) <= Count line "," + 1 /\
  List.length (parseKVLine section prefix v) <= Count v "," + 1 /\
  List.length (parseKVLine section prefix v) <= Count v "=".
Proof.
  assert (Hkv : forall s p w,
             List.length (parseKVLine s p w) <= Count w "," + 1 /\
             List.length (parseKVLine s p w) <= Count w "=").
  { intros s p w. rewrite parseKVLine_candidates. split.
    - rewrite <- (length_Split ","%char w).
      induction (Split w ",") as [|c cs IH]; [simpl; lia|].
      cbn [flat_map]. rewrite length_app. unfold expandPair at 1.
      destruct (Cut c "=") as [[a b]|]; simpl in *; lia.
    - transitivity (Count (String.concat "," (Split w ",")) "=");
        [|now rewrite (concat_Split ","%char w)].
      etransitivity; [|apply (Count_concat ","%char)].
      induction (Split w ",") as [|c cs IH]; [simpl; lia|].
      change (list_sum (map (fun x => Count x "=") (c :: cs))) with
        (Count c "=" + list_sum (map (fun x => Count x "=") cs)).
      cbn [flat_map]. rewrite length_app.
      unfold expandPair at 1.
      destruct (Cut c "=") as [[a b]|] eqn:E; simpl List.length; [|lia].
      apply Cut_Some in E as [-> _]. rewrite Count_app. simpl Count. lia. }
  split; [|apply Hkv].
  rewrite parseLine_cases.
  destruct (HasPrefix line "#"); [simpl; lia|].
  destruct (Cut line ":") as [[k w]|] eqn:E; [|simpl; lia].
  apply Cut_Some in E as [-> _].
  destruct (expandable k); [|simpl; lia].
  cbn [fst]. rewrite <- parseKVLine_candidates.
  destruct (Hkv section k w) as [H _].
  rewrite Count_app. simpl. lia.
Qed.

End ParserExtras.

(** * Lower case, white space and line feeds *)

Section NormalForm.

Import bufio.

Lemma toLowerByte_idem (c : ascii) : toLowerByte (toLowerByte c) = toLowerByte c.
Proof. destruct c as [[] [] [] [] [] [] [] []]; reflexivity. Qed.

Lemma isSpace_toLowerByte (c : ascii) : isSpace (toLowerByte c) = isSpace c.
Proof. destruct c as [[] [] [] [] [] [] [] []]; reflexivity. Qed.

Lemma toLowerByte_LF (c : ascii) :
  Ascii.eqb (toLowerByte c) LF = Ascii.eqb c LF.
Proof. destruct c as [[] [] [] [] [] [] [] []]; reflexivity. Qed.

Lemma ToLower_idem (s : string) : ToLower (ToLower s) = ToLower s.
Proof.
  induction s as [|c s IH]; simpl; [reflexivity|].
  now rewrite toLowerByte_idem, IH.
Qed.

Lemma TrimLeftSpace_ToLower (s : string) :
  TrimLeftSpace (ToLower s) = ToLower (TrimLeftSpace s).
Proof.
  induction s as [|c s IH]; simpl; [reflexivity|].
  rewrite isSpace_toLowerByte. now destruct (isSpace c).
Qed.

Lemma TrimRightSpace_ToLower (s : string) :
  TrimRightSpace (ToLower s) = ToLower (TrimRightSpace s).
Proof.
  induction s as [|c s IH]; simpl; [reflexivity|].
  rewrite IH, isSpace_toLowerByte.
  destruct (TrimRightSpace s); simpl; [|reflexivity].
  now destruct (isSpace c).
Qed.

Lemma TrimSpace_ToLower (s : string) :
  TrimSpace (ToLower s) = ToLower (TrimSpace s).
Proof.
  unfold TrimSpace. now rewrite TrimLeftSpace_ToLower, TrimRightSpace_ToLower.
Qed.

Lemma TrimRightSpace_idem (s : string) :
  TrimRightSpace (TrimRightSpace s) = TrimRightSpace s.
Proof.
  induction s as [|c s IH]; [reflexivity|].
  cbn [TrimRightSpace].
  destruct (TrimRightSpace s) as [|d t] eqn:E.
  - destruct (isSpace c) eqn:Ec; [reflexivity|]. simpl. now rewrite Ec.
  - change (TrimRightSpace (String c (String d t))) with
      (match TrimRightSpace (String d t) with
       | EmptyString => if isSpace c then EmptyString else String c EmptyString
       | String _ _ as t' => String c t'
       end).
    now rewrite IH.
Qed.

(** A trimmed text is empty or begins with a byte that is not white
    space. *)
Lemma TrimLeftSpace_head (s : string) :
  match TrimLeftSpace s with
  | EmptyString => True
  | String c _ => isSpace c = false
  end.
Proof.
  induction s as [|c s IH]; simpl; [exact I|].
  destruct (isSpace c) eqn:E; [exact IH | exact E].
Qed.

Lemma TrimSpace_head (s : string) :
  match TrimSpace s with
  | EmptyString => True
  | String c _ => isSpace c = false
  end.
Proof.
  unfold TrimSpace. pose proof (TrimLeftSpace_head s) as H.
  destruct (TrimLeftSpace s) as [|c y]; [exact I|].
  cbn [TrimRightSpace].
  destruct (TrimRightSpace y); [now rewrite H | exact H].
Qed.

Lemma TrimSpace_idem (s : string) : TrimSpace (TrimSpace s) = TrimSpace s.
Proof.
  pose proof (TrimSpace_head s) as H.
  unfold TrimSpace at 1.
  assert (E : TrimLeftSpace (TrimSpace s) = TrimSpace s).
  { destruct (TrimSpace s) as [|c z]; [reflexivity|]. simpl. now rewrite H. }
  rewrite E. unfold TrimSpace. apply TrimRightSpace_idem.
Qed.

Lemma Count_ToLower_LF (s : string) : Count (ToLower s) LF = Count s LF.
Proof.
  induction s as [|c s IH]; simpl; [reflexivity|].
  now rewrite toLowerByte_LF, IH.
Qed.

Lemma Count_TrimLeftSpace (s : string) (d : ascii) :
  Count (TrimLeftSpace s) d <= Count s d.
Proof.
  induction s as [|c s IH]; simpl; [lia|].
  destruct (isSpace c); simpl; lia.
Qed.

Lemma Count_TrimRightSpace (s : string) (d : ascii) :
  Count (TrimRightSpace s) d <= Count s d.
Proof.
  induction s as [|c s IH]; simpl; [lia|].
  destruct (TrimRightSpace s); simpl in *.
  - destruct (isSpace c); simpl; lia.
  - lia.
Qed.

Lemma Count_drop (n : nat) (s : string) (d : ascii) :
  Count (drop n s) d <= Count s d.
Proof.
  revert s; induction n as [|n IH]; intros s; [destruct s; simpl; lia|].
  destruct s as [|c s]; simpl; [lia|]. specialize (IH s). lia.
Qed.

(** The section a header line sets has the line's line feeds at most. *)
Lemma Count_header_section (h : string) :
  Count (ToLower (TrimSpace (TrimPrefix h "#"))) LF <= Count h LF.
Proof.
  rewrite Count_ToLower_LF. unfold TrimSpace.
  etransitivity; [apply Count_TrimRightSpace|].
  etransitivity; [apply Count_TrimLeftSpace|].
  unfold TrimPrefix. destruct (HasPrefix h "#"); [apply Count_drop | lia].
Qed.

Lemma rawLines_no_LF (t : string) :
  Forall (fun l => Count l LF = 0) (rawLines t).
Proof.
  induction t as [|c t IH]; [constructor|].
  rewrite rawLines_cons. destruct (Ascii.eqb c LF) eqn:E.
  - now constructor.
  - destruct (rawLines t) as [|l ls].
    + constructor; [simpl; now rewrite E | constructor].
    + inversion IH; subst. constructor; [simpl; rewrite E; lia | assumption].
Qed.

Lemma Count_dropCR (l : string) (d : ascii) : Count (dropCR l) d <= Count l d.
Proof.
  destruct (dropCR_cases l) as [->|E]; [lia|].
  rewrite E at 2. rewrite Count_app. lia.
Qed.

Lemma takeWhile_In {A : Type} (p : A -> bool) (l : list A) (x : A) :
  In x (takeWhile p l) -> In x l.
Proof.
  induction l as [|a l IH]; simpl; [tauto|].
  destruct (p a); simpl; [|tauto]. intros [H|H]; [now left | right; auto].
Qed.

Lemma Scan_no_LF (blob line : string) :
  In line (Scan blob) -> Count line LF = 0.
Proof.
  unfold Scan. rewrite in_map_iff. intros (l & <- & Hl).
  apply takeWhile_In in Hl.
  pose proof (rawLines_no_LF blob) as HF. rewrite Forall_forall in HF.
  specialize (HF _ Hl). pose proof (Count_dropCR l LF). lia.
Qed.

Lemma lastHeader_In (pre : list string) (h : string) :
  lastHeader pre = Some h -> In h pre.
Proof.
  induction pre as [|l pre IH]; [discriminate|].
  cbn [lastHeader]. destruct (lastHeader pre) as [h'|].
  - intros [= <-]. right. now apply IH.
  - destruct (HasPrefix l "#"); [|discriminate]. intros [= <-]. now left.
Qed.

End NormalForm.

(** * More on the scanner *)

Section ScannerExtras.

Import bufio.

(** X5: when the read fails, [fetchMetrics] returns that failure and no
    record.  The read fails when [conn.Do] returns an error, and also when
    the reply is not a text: a nil reply, an integer, an array or an error
    reply of the server. *)
Theorem fetch_failure (conn : redis.Conn) (reply : redis.Reply)
  (err : option error) :
  redis.Do conn "INFO" ["ALL"] = (reply, err) ->
  err <> None \/
  (forall b, reply <> redis.ReplyBytes b /\ reply <> redis.ReplyString b) ->
  fst (fetchMetrics conn) = [] /\
  snd (fetchMetrics conn) <> None /\
  snd (fetchMetrics conn) = snd (redis.Bytes reply err).
Proof.
  intros HDo H. unfold fetchMetrics. rewrite HDo.
  destruct err as [e|]; [now repeat split|].
  destruct H as [H|H]; [now elim H|].
  destruct reply as [|b|s| | |]; try (now repeat split).
  - now destruct (H b) as [C _].
  - now destruct (H s) as [_ C].
Qed.

Lemma fetch_failure_witness :
  let conn := redis.mkConn (fun _ _ => (redis.ReplyNil, None)) in
  fst (fetchMetrics conn) = [] /\
  snd (fetchMetrics conn) <> None /\
  snd (fetchMetrics conn) = snd (redis.Bytes redis.ReplyNil None).
Proof.
  apply (fetch_failure (redis.mkConn (fun _ _ => (redis.ReplyNil, None)))
           redis.ReplyNil None).
  - reflexivity.
  - right. intros b. split; discriminate.
Defined.

(** X6: the section of every record of a scan is in lower case and
    trimmed: lowering or trimming it again changes nothing. *)
Theorem section_normal_form (blob : string) (r : Metric) :
  In r (fst (fetchMetrics (replying blob))) ->
  ToLower (mSection r) = mSection r /\
  TrimSpace (mSection r) = mSection r.
Proof.
  rewrite fetchMetrics_replying. cbn [fst]. intros H.
  apply scanRecords_origin in H as (pre & line & post & _ & Hr).
  apply parseLine_section in Hr. rewrite Hr, sectionFrom_lastHeader.
  destruct (lastHeader pre) as [h|]; [|now split].
  split.
  - apply ToLower_idem.
  - now rewrite TrimSpace_ToLower, TrimSpace_idem.
Qed.

Lemma section_normal_form_witness :
  ToLower "server info" = "server info" /\
  TrimSpace "server info" = "server info".
Proof.
  apply (section_normal_form
           ("#  Server INFO  " ++ crlf ++ "role:master" ++ crlf)
           (mkMetric "server info" "" "role" "master")).
  simpl. left. reflexivity.
Defined.

Lemma scanRecords_no_LF (blob : string) (r : Metric) :
  In r (scanRecords "" (Scan blob)) ->
  Count (mSection r) LF = 0 /\ Count (mPrefix r) LF = 0 /\
  Count (mKey r) LF = 0 /\ Count (mValue r) LF = 0.
Proof.
  intros H.
  apply scanRecords_origin in H as (pre & line & post & E & Hr).
  assert (Hlines : forall l, In l (pre ++ line :: post)%list -> Count l LF = 0).
  { intros l Hl. apply (Scan_no_LF blob). now rewrite E. }
  split.
  - rewrite (parseLine_section _ _ _ Hr), sectionFrom_lastHeader.
    destruct (lastHeader pre) as [h|] eqn:Eh; [|reflexivity].
    apply lastHeader_In in Eh.
    pose proof (Count_header_section h).
    assert (Count h LF = 0) by (apply Hlines, in_or_app; now left).
    lia.
  - assert (Hline : Count line LF = 0) by apply Hlines, in_elt.
    destruct (parseLine_record _ _ _ Hr) as (Hh & k & v & Hcut).
    rewrite parseLine_cases, Hh, Hcut in Hr.
    apply Cut_Some in Hcut as [-> _].
    rewrite Count_app in Hline. simpl in Hline.
    destruct (expandable k); cbn [fst] in Hr.
    + apply in_flat_map in Hr as (cand & Hin & Hc).
      pose proof (expandPair_section _ _ _ _ Hc) as (_ & Hp & Hcand).
      apply (Count_part ","%char LF) in Hin.
      rewrite Hcand, !Count_app in Hin. rewrite Hp. lia.
    + destruct Hr as [<-|[]]. cbn [mPrefix mKey mValue]. simpl. lia.
Qed.

(** X7: no field of a record of a scan holds a line feed, so a record
    never spans lines of the output. *)
Theorem fields_without_line_feed (blob : string) (r : Metric) :
  In r (fst (fetchMetrics (replying blob))) ->
  Count (mSection r) LF = 0 /\ Count (mPrefix r) LF = 0 /\
  Count (mKey r) LF = 0 /\ Count (mValue r) LF = 0.
Proof.
  rewrite fetchMetrics_replying. cbn [fst]. apply scanRecords_no_LF.
Qed.

Lemma fields_without_line_feed_witness :
  Count "keyspace" LF = 0 /\ Count "db0" LF = 0 /\
  Count "keys" LF = 0 /\ Count "1" LF = 0.
Proof.
  apply (fields_without_line_feed
           ("# Keyspace" ++ crlf ++ "db0:keys=1,expires=0" ++ crlf)
           (mkMetric "keyspace" "db0" "keys" "1")).
  simpl. left. reflexivity.
Defined.

Lemma takeWhile_all {A : Type} (p : A -> bool) (l1 l2 : list A) :
  forallb p l1 = true ->
  takeWhile p (l1 ++ l2) = (l1 ++ takeWhile p l2)%list.
Proof.
  induction l1 as [|a l1 IH]; [reflexivity|].
  cbn [forallb app takeWhile]. intros H.
  apply andb_true_iff in H as [-> H]. now rewrite IH.
Qed.

Lemma scanRecords_app (A B : list string) (s : string) :
  scanRecords s (A ++ B) =
  (scanRecords s A ++ scanRecords (sectionFrom s A) B)%list.
Proof.
  revert s; induction A as [|a A IH]; intros s; [reflexivity|].
  cbn [app scanRecords]. rewrite IH. now rewrite app_assoc.
Qed.

(** A text that begins with [#] is scanned alike whatever section is
    current. *)
Lemma header_first (t : string) (s s' : string) :
  HasPrefix t "#" = true ->
  scanRecords s (Scan t) = scanRecords s' (Scan t).
Proof.
  destruct t as [|c t]; [discriminate|].
  simpl HasPrefix. rewrite andb_true_r. intros Hc.
  apply Ascii.eqb_eq in Hc; subst c.
  unfold Scan. rewrite rawLines_cons.
  change (Ascii.eqb "#" LF) with false. cbv iota.
  assert (H : forall l ls,
             scanRecords s (map dropCR (takeWhile fits (String "#" l :: ls))) =
             scanRecords s' (map dropCR (takeWhile fits (String "#" l :: ls)))).
  { intros l ls. cbn [takeWhile]. destruct (fits (String "#" l)); [|reflexivity].
    cbn [map scanRecords].
    assert (Hh : HasPrefix (dropCR (String "#" l)) "#" = true)
      by now destruct l.
    unfold nextSection. rewrite !parseLine_cases, Hh. reflexivity. }
  destruct (rawLines t); apply H.
Qed.

(** X8: scanning composes.  For a text [t1] that ends at a line end and
    whose lines all fit the Scanner's buffer, the records of [t1 ++ t2] are
    those of [t1] followed by those of [t2] read with the section [t1]
    ends in; when [t2] begins with a header, they are the records of [t1]
    followed by the records of [t2]. *)
Theorem scan_concat (t1 t2 : string) :
  lineStart t1 = true ->
  forallb fits (rawLines t1) = true ->
  fst (fetchMetrics (replying (t1 ++ t2))) =
    (fst (fetchMetrics (replying t1)) ++
     scanRecords (sectionAfter (Scan t1)) (Scan t2))%list /\
  (HasPrefix t2 "#" = true ->
   fst (fetchMetrics (replying (t1 ++ t2))) =
     (fst (fetchMetrics (replying t1)) ++
      fst (fetchMetrics (replying t2)))%list).
Proof.
  intros Ht Hf.
  assert (E : Scan (t1 ++ t2) = (Scan t1 ++ Scan t2)%list).
  { unfold Scan. rewrite rawLines_app by assumption.
    rewrite takeWhile_all by assumption. rewrite map_app. f_equal.
    rewrite <- (app_nil_r (rawLines t1)) at 2.
    rewrite takeWhile_all by assumption. now rewrite app_nil_r. }
  rewrite !fetchMetrics_replying. cbn [fst].
  rewrite E, scanRecords_app, sectionFrom_sectionAfter.
  split; [reflexivity|]. intros Hh. f_equal. now apply header_first.
Qed.

Lemma scan_concat_witness :
  let t1 := "# Server" ++ crlf ++ "role:master" ++ crlf in
  let t2 := "# Clients" ++ crlf ++ "connected:4" ++ crlf in
  fst (fetchMetrics (replying (t1 ++ t2))) =
    (fst (fetchMetrics (replying t1)) ++
     scanRecords (sectionAfter (Scan t1)) (Scan t2))%list /\
  (HasPrefix t2 "#" = true ->
   fst (fetchMetrics (replying (t1 ++ t2))) =
     (fst (fetchMetrics (replying t1)) ++
      fst (fetchMetrics (replying t2)))%list).
Proof.
  apply (scan_concat ("# Server" ++ crlf ++ "role:master" ++ crlf)
           ("# Clients" ++ crlf ++ "connected:4" ++ crlf)); reflexivity.
Defined.

End ScannerExtras.

(** * Line ends and long lines *)

Section LineEnds.

Import bufio.

Lemma length_app_s (a b : string) :
  String.length (a ++ b) = String.length a + String.length b.
Proof. induction a as [|c a IH]; simpl; [reflexivity | now rewrite IH]. Qed.

Lemma fits_shorter (l : string) (c : ascii) :
  fits (l ++ String c "") = true -> fits l = true.
Proof.
  unfold fits. rewrite length_app_s. rewrite !N.ltb_lt. simpl String.length.
  lia.
Qed.

Lemma dropCR_snoc (l : string) : dropCR (l ++ String CR "") = l.
Proof.
  induction l as [|c l IH]; [reflexivity|].
  change (String c l ++ String CR "") with (String c (l ++ String CR "")).
  destruct l as [|d l].
  - reflexivity.
  - change (dropCR (String c (String d l ++ String CR ""))) with
      (String c (dropCR (String d l ++ String CR ""))).
    now rewrite IH.
Qed.

Lemma takeWhile_id {A : Type} (p : A -> bool) (l : list A) :
  forallb p l = true -> takeWhile p l = l.
Proof.
  intros H. rewrite <- (app_nil_r l) at 1.
  rewrite takeWhile_all by assumption. apply app_nil_r.
Qed.

Lemma rawLines_joinLines_nl (ls : list string) :
  Forall (fun l => Count l LF = 0) ls -> rawLines (joinLines nl ls) = ls.
Proof.
  induction 1 as [|l ls Hl _ IH]; [reflexivity|].
  cbn [joinLines]. rewrite rawLines_line by assumption. now rewrite IH.
Qed.

Lemma rawLines_joinLines_crlf (ls : list string) :
  Forall (fun l => Count l LF = 0) ls ->
  rawLines (joinLines crlf ls) = map (fun l => l ++ String CR "") ls.
Proof.
  induction 1 as [|l ls Hl _ IH]; [reflexivity|].
  cbn [joinLines map].
  change (l ++ crlf ++ joinLines crlf ls) with
    (l ++ String CR "" ++ nl ++ joinLines crlf ls).
  rewrite <- app_assoc_s. rewrite rawLines_line.
  - now rewrite IH.
  - rewrite Count_app, Hl. reflexivity.
Qed.

(** X9: line ends do not matter.  For lines without a line feed and
    without a final carriage return, short enough for the Scanner's buffer
    with their end, the Scanner reads back exactly these lines from the
    text that ends each with CR LF and from the text that ends each with
    LF, and [fetchMetrics] gives the same result on both. *)
Theorem line_ends_alike (ls : list string) :
  Forall (fun l => Count l LF = 0 /\ dropCR l = l /\
                   fits (l ++ String CR "") = true) ls ->
  Scan (joinLines crlf ls) = ls /\
  Scan (joinLines nl ls) = ls /\
  fetchMetrics (replying (joinLines crlf ls)) =
  fetchMetrics (replying (joinLines nl ls)).
Proof.
  intros H.
  assert (HLF : Forall (fun l => Count l LF = 0) ls)
    by (eapply Forall_impl; [|exact H]; now intros l (H1 & _)).
  assert (E1 : Scan (joinLines crlf ls) = ls).
  { unfold Scan. rewrite rawLines_joinLines_crlf by assumption.
    rewrite takeWhile_id.
    - rewrite map_map. clear HLF.
      induction H as [|l ls _ _ IH]; [reflexivity|].
      cbn [map]. now rewrite dropCR_snoc, IH.
    - rewrite forallb_forall. intros x Hx.
      apply in_map_iff in Hx as (l & <- & Hl).
      rewrite Forall_forall in H. now apply H. }
  assert (E2 : Scan (joinLines nl ls) = ls).
  { unfold Scan. rewrite rawLines_joinLines_nl by assumption.
    rewrite takeWhile_id.
    - clear HLF E1.
      induction H as [|l ls (_ & Hd & _) _ IH]; [reflexivity|].
      cbn [map]. now rewrite Hd, IH.
    - rewrite forallb_forall. intros l Hl.
      rewrite Forall_forall in H. destruct (H l Hl) as (_ & _ & Hf).
      now apply fits_shorter in Hf. }
  split; [exact E1|]. split; [exact E2|].
  now rewrite !fetchMetrics_replying, E1, E2.
Qed.

Lemma line_ends_alike_witness :
  let ls := ["# Server"; "role:master"; ""; "db0:keys=1,expires=0"] in
  Scan (joinLines crlf ls) = ls /\
  Scan (joinLines nl ls) = ls /\
  fetchMetrics (replying (joinLines crlf ls)) =
  fetchMetrics (replying (joinLines nl ls)).
Proof.
  apply (line_ends_alike
           ["# Server"; "role:master"; ""; "db0:keys=1,expires=0"]).
  repeat constructor.
Defined.

Lemma rawLines_last_line (c : ascii) (line : string) :
  Count (String c line) LF = 0 -> rawLines (String c line) = [String c line].
Proof.
  revert c; induction line as [|d line IH]; intros c H.
  - simpl in *. destruct (Ascii.eqb c LF); [discriminate | reflexivity].
  - rewrite rawLines_cons. simpl in H.
    destruct (Ascii.eqb c LF); [discriminate|].
    now rewrite IH.
Qed.

(** X10: a line too long for the Scanner's buffer ends the scan without
    an error.  The result is that of the text before the line: the line
    and whatever follows it are lost, and [fetchMetrics] still returns no
    error. *)
Theorem long_line_ends_scan (t1 line rest : string) :
  lineStart t1 = true ->
  Count line LF = 0 ->
  fits line = false ->
  fetchMetrics (replying (t1 ++ line ++ nl ++ rest)) =
    fetchMetrics (replying t1) /\
  fetchMetrics (replying (t1 ++ line)) = fetchMetrics (replying t1) /\
  snd (fetchMetrics (replying (t1 ++ line ++ nl ++ rest))) = None.
Proof.
  intros Ht Hl Hf.
  assert (E : forall ls, takeWhile fits (rawLines t1 ++ line :: ls) =
                         takeWhile fits (rawLines t1)).
  { intros ls. now apply takeWhile_stop. }
  rewrite !fetchMetrics_replying. unfold Scan.
  rewrite (rawLines_app t1 (line ++ nl ++ rest)), (rawLines_app t1 line)
    by assumption.
  rewrite rawLines_line by assumption. rewrite E.
  split; [reflexivity|]. split; [|reflexivity]. f_equal.
  destruct line as [|c line]; [discriminate|].
  rewrite rawLines_last_line by assumption. now rewrite E.
Qed.

Lemma long_line_ends_scan_witness :
  fetchMetrics (replying (("a:1" ++ nl) ++ longLine ++ nl ++ "b:2")) =
    fetchMetrics (replying ("a:1" ++ nl)) /\
  fetchMetrics (replying (("a:1" ++ nl) ++ longLine)) =
    fetchMetrics (replying ("a:1" ++ nl)) /\
  snd (fetchMetrics (replying (("a:1" ++ nl) ++ longLine ++ nl ++ "b:2"))) =
    None.
Proof.
  apply (long_line_ends_scan ("a:1" ++ nl) longLine "b:2").
  - reflexivity.
  - apply Count_Repeat1. reflexivity.
  - exact longLine_too_long.
Defined.

End LineEnds.

(** * [getRedis] and the loop of [main] *)

Section Connecting.

(** X11: [getRedis] returns a connection exactly when the dial of
    [host:port] over tcp gives that connection and the server answers
    [PING] with the text [PONG], without an error; it prints its one line
    only then. *)
Theorem getRedis_connects_iff
  (Dial : Dialer) (host : string) (port : Z) (r : redis.Conn) :
  let addr := host ++ ":" ++ Sprintf_d port in
  (fst (getRedis Dial host port) = inl r <->
   Dial "tcp" addr = inl r /\
   snd (redis.Do r "PING" []) = None /\
   (fst (redis.Do r "PING" []) = redis.ReplyBytes "PONG" \/
    fst (redis.Do r "PING" []) = redis.ReplyString "PONG")) /\
  snd (getRedis Dial host port) =
    match fst (getRedis Dial host port) with
    | inl _ => "# connected to Redis server: " ++ addr ++ nl
    | inr _ => ""
    end.
Proof.
  intros addr. unfold getRedis. fold addr.
  destruct (Dial "tcp" addr) as [r'|e]; [|split; [split|]; cbn [fst snd];
    [discriminate | now intros [[=] _] | reflexivity]].
  destruct (redis.Do r' "PING" []) as [reply [e|]] eqn:EDo.
  - cbn [redis.String fst snd]. split; [|reflexivity]. split; [discriminate|].
    intros ([= <-] & H & _). rewrite EDo in H. discriminate.
  - assert (Hs : forall s, redis.String reply None = (s, None) ->
                 reply = redis.ReplyBytes s \/ reply = redis.ReplyString s).
    { intros s. destruct reply; cbn [redis.String]; intros [=]; subst; auto. }
    destruct (redis.String reply None) as [s [e|]] eqn:ES.
    + cbn [fst snd]. split; [|reflexivity]. split; [discriminate|].
      intros ([= <-] & _ & H). rewrite EDo in H. cbn [fst] in H.
      destruct H as [-> | ->]; discriminate.
    + specialize (Hs s eq_refl).
      destruct (String.eqb_spec s "PONG") as [->|Hne]; cbn [negb fst snd].
      * split; [|reflexivity]. split.
        -- intros [= <-]. rewrite EDo. cbn [fst snd]. split; [reflexivity|].
           split; [reflexivity|]. destruct Hs as [-> | ->]; auto.
        -- now intros ([= <-] & _).
      * split; [|reflexivity]. split; [discriminate|].
        intros ([= <-] & _ & H). rewrite EDo in H. cbn [fst] in H.
        destruct H as [-> | ->]; cbn [redis.String] in ES;
          injection ES as <-; now elim Hne.
Qed.

End Connecting.

Arguments putval {float64} ParseFloat Sprintf_f Seconds interval t out m.
Arguments cycle {float64} ParseFloat Sprintf_f Seconds conn interval t.

Section Printing.

Import bufio.

Variable float64 : Type.
Variable ParseFloat : string -> float64 * option error.
Variable Sprintf_f : float64 -> string.
Variable Seconds : Z -> float64.

Lemma Count_string_of_uint (d : Decimal.uint) :
  Count (NilEmpty.string_of_uint d) LF = 0.
Proof. induction d; simpl; auto. Qed.

Lemma Count_Sprintf_d (z : Z) : Count (Sprintf_d z) LF = 0.
Proof.
  unfold Sprintf_d. destruct (Z.to_int z); simpl; apply Count_string_of_uint.
Qed.

Lemma Count_pk (m : Metric) :
  Count (mPrefix m) LF = 0 -> Count (mKey m) LF = 0 -> Count (pk m) LF = 0.
Proof.
  intros Hp Hk. unfold pk. destruct (mPrefix m =? ""); cbn [negb].
  - exact Hk.
  - rewrite !Count_app, Hp, Hk. reflexivity.
Qed.

(** Each record with a numeric value adds one line to the output, and the
    other records add nothing. *)
Lemma putval_lines (interval t : Z) (ms : Metrics) (out : string) :
  (forall f, Count (Sprintf_f f) LF = 0) ->
  Forall (fun m => Count (mSection m) LF = 0 /\ Count (mPrefix m) LF = 0 /\
                   Count (mKey m) LF = 0 /\ Count (mValue m) LF = 0) ms ->
  Count (fold_left (putval ParseFloat Sprintf_f Seconds interval t) ms out) LF =
  Count out LF + List.length (filter (numeric ParseFloat) ms).
Proof.
  intros Hf H. revert out.
  induction H as [|m ms (Hs & Hp & Hk & _) _ IH]; intros out; [simpl; lia|].
  cbn [fold_left filter]. rewrite IH. unfold putval, numeric.
  destruct (ParseFloat (mValue m)) as [f [e|]]; cbn [snd]; [reflexivity|].
  rewrite !Count_app, !Hf, Hs, Count_Sprintf_d, (Count_pk m Hp Hk).
  simpl. lia.
Qed.

(** X12: when the read succeeds, a turn of the loop of [main] never
    exits, whatever the text holds: it goes on to sleep, and it prints
    exactly one line for each record whose value is a number (given that
    the verb [%f] prints no line feed). *)
Theorem cycle_prints_numeric_records
  (conn : redis.Conn) (blob : string) (interval t : Z) :
  fetched conn = (blob, None) ->
  (forall f, Count (Sprintf_f f) LF = 0) ->
  snd (cycle ParseFloat Sprintf_f Seconds conn interval t) = Sleep interval /\
  Count (fst (cycle ParseFloat Sprintf_f Seconds conn interval t)) LF =
    List.length (filter (numeric ParseFloat) (fst (fetchMetrics conn))).
Proof.
  intros Hr Hf. unfold cycle.
  rewrite (fetchMetrics_fetched conn blob Hr). cbn [fst snd].
  split; [reflexivity|].
  rewrite putval_lines; [reflexivity | exact Hf |].
  apply Forall_forall. intros m Hm. now apply (scanRecords_no_LF blob).
Qed.

(** X13: a turn of the loop of [main] exits, with status 1, exactly when
    the read fails, and then it prints the error and no metric; it never
    exits for what the text holds. *)
Theorem cycle_exits_iff_read_fails (conn : redis.Conn) (interval t : Z) :
  (snd (cycle ParseFloat Sprintf_f Seconds conn interval t) = Exit 1 <->
   snd (fetched conn) <> None) /\
  (snd (cycle ParseFloat Sprintf_f Seconds conn interval t) = Sleep interval <->
   snd (fetched conn) = None) /\
  (forall e, snd (fetched conn) = Some e ->
   fst (cycle ParseFloat Sprintf_f Seconds conn interval t) =
   "error fetching metrics:" ++ nl ++ Error e ++ nl).
Proof.
  rewrite <- fetchMetrics_error. unfold cycle.
  destruct (fetchMetrics conn) as [ms [e|]]; cbn [fst snd].
  - split; [|split].
    + split; [discriminate | reflexivity].
    + split; discriminate.
    + now intros e' [= <-].
  - split; [|split].
    + split; [discriminate | intros C; now elim C].
    + split; reflexivity.
    + discriminate.
Qed.

End Printing.

Lemma cycle_prints_numeric_records_witness :
  let ParseFloat := fun s : string =>
    if s =? "4" then (4%Z, None)
    else (0%Z, Some (errorString "invalid syntax")) in
  let Sprintf_f := fun z : Z => Sprintf_d z ++ ".000000" in
  let Seconds := fun d : Z => (d / 1000000000)%Z in
  let conn := replying ("# Clients" ++ crlf ++ "connected:4" ++ crlf ++
                        "role:master" ++ crlf) in
  snd (cycle ParseFloat Sprintf_f Seconds conn 10000000000 1700000000) =
    Sleep 10000000000 /\
  Count (fst (cycle ParseFloat Sprintf_f Seconds conn
                10000000000 1700000000)) bufio.LF =
    List.length (filter (numeric ParseFloat) (fst (fetchMetrics conn))).
Proof.
  apply (cycle_prints_numeric_records Z
           (fun s : string =>
              if s =? "4" then (4%Z, None)
              else (0%Z, Some (errorString "invalid syntax")))
           (fun z : Z => Sprintf_d z ++ ".000000")
           (fun d : Z => (d / 1000000000)%Z)
           (replying ("# Clients" ++ crlf ++ "connected:4" ++ crlf ++
                      "role:master" ++ crlf))
           ("# Clients" ++ crlf ++ "connected:4" ++ crlf ++
            "role:master" ++ crlf)).
  - reflexivity.
  - intros f. rewrite Count_app, Count_Sprintf_d. reflexivity.
Defined.

Section Names.

Lemma record_kind (section line : string) (r : Metric) :
  In r (fst (parseLine section line)) ->
  (mPrefix r = "" /\ expandable (mKey r) = false) \/
  expandable (mPrefix r) = true.
Proof.
  intros Hr.
  destruct (parseLine_record _ _ _ Hr) as (Hh & k & v & Hcut).
  rewrite parseLine_cases, Hh, Hcut in Hr.
  destruct (expandable k) eqn:He; cbn [fst] in Hr.
  - right. apply in_flat_map in Hr as (cand & _ & Hc).
    apply expandPair_section in Hc as (_ & -> & _). exact He.
  - left. destruct Hr as [<-|[]]. now split.
Qed.

Lemma expandable_app (a b : string) :
  expandable a = true -> expandable (a ++ b) = true.
Proof.
  unfold expandable. intros H. apply orb_true_iff in H as [H|H].
  - now rewrite (HasPrefix_app _ b _ H).
  - rewrite (HasPrefix_app _ b _ H). apply orb_true_r.
Qed.

(** X14: the name [main] gives a plain record is never the name it gives
    an expanded record: the first starts neither with [cmdstat_] nor with
    [db], the second does. *)
Theorem plain_and_expanded_names_differ
  (s1 l1 s2 l2 : string) (r1 r2 : Metric) :
  In r1 (fst (parseLine s1 l1)) ->
  In r2 (fst (parseLine s2 l2)) ->
  mPrefix r1 = "" ->
  mPrefix r2 <> "" ->
  pk r1 = mKey r1 /\
  pk r2 = mPrefix r2 ++ "/" ++ mKey r2 /\
  expandable (pk r1) = false /\
  expandable (pk r2) = true /\
  pk r1 <> pk r2.
Proof.
  intros H1 H2 P1 P2.
  assert (E1 : pk r1 = mKey r1) by (unfold pk; now rewrite P1).
  assert (E2 : pk r2 = mPrefix r2 ++ "/" ++ mKey r2).
  { unfold pk. destruct (String.eqb_spec (mPrefix r2) ""); [contradiction|].
    reflexivity. }
  assert (X1 : expandable (pk r1) = false).
  { rewrite E1. destruct (record_kind _ _ _ H1) as [[_ H]|H]; [exact H|].
    rewrite P1 in H. discriminate. }
  assert (X2 : expandable (pk r2) = true).
  { rewrite E2. apply expandable_app.
    destruct (record_kind _ _ _ H2) as [[H _]|H]; [contradiction | exact H]. }
  repeat split; try assumption.
  intros C. rewrite C, X2 in X1. discriminate.
Qed.

Lemma plain_and_expanded_names_differ_witness :
  pk (mkMetric "keyspace" "" "keys/db0" "7") = "keys/db0" /\
  pk (mkMetric "keyspace" "db0" "keys" "1") = "db0" ++ "/" ++ "keys" /\
  expandable (pk (mkMetric "keyspace" "" "keys/db0" "7")) = false /\
  expandable (pk (mkMetric "keyspace" "db0" "keys" "1")) = true /\
  pk (mkMetric "keyspace" "" "keys/db0" "7") <>
  pk (mkMetric "keyspace" "db0" "keys" "1").
Proof.
  apply (plain_and_expanded_names_differ
           "keyspace" "keys/db0:7" "keyspace" "db0:keys=1"
           (mkMetric "keyspace" "" "keys/db0" "7")
           (mkMetric "keyspace" "db0" "keys" "1")).
  - simpl. left. reflexivity.
  - simpl. left. reflexivity.
  - reflexivity.
  - discriminate.
Defined.

End Names.

(** * Trimmed and lowercase, on ASCII text *)

Section AsciiMeaning.

Lemma toLowerByte_lowerByte (c : ascii) : lowerByte c (toLowerByte c).
Proof.
  destruct c as [[] [] [] [] [] [] [] []]; split; intros H; cbn in H |- *;
    first [reflexivity | lia | (exfalso; apply H; lia)].
Qed.

Lemma ToLower_loweredFrom (y : string) : loweredFrom y (ToLower y).
Proof.
  unfold loweredFrom. induction y as [|c y IH]; simpl; constructor.
  - apply toLowerByte_lowerByte.
  - exact IH.
Qed.

Lemma TrimLeftSpace_split (x : string) :
  exists l, x = l ++ TrimLeftSpace x /\ allSpace l = true.
Proof.
  induction x as [|c x (l & E & Hl)]; [now exists ""|].
  simpl. destruct (isSpace c) eqn:Ec.
  - exists (String c l). simpl. rewrite Ec, Hl. split; [now f_equal | reflexivity].
  - now exists "".
Qed.

Lemma TrimRightSpace_split (y : string) :
  exists r, y = TrimRightSpace y ++ r /\ allSpace r = true.
Proof.
  induction y as [|c y (r & E & Hr)]; [now exists ""|].
  cbn [TrimRightSpace]. destruct (TrimRightSpace y) as [|d t].
  - simpl in E. subst y. destruct (isSpace c) eqn:Ec.
    + exists (String c r). simpl. now rewrite Ec, Hr.
    + now exists r.
  - exists r. split; [|exact Hr]. simpl. now rewrite E at 1.
Qed.

Lemma lastByte_None (s : string) : lastByte s = None -> s = "".
Proof.
  destruct s as [|c s]; [reflexivity|]. simpl.
  destruct (lastByte s); discriminate.
Qed.

Lemma TrimRightSpace_last (y : string) :
  match lastByte (TrimRightSpace y) with
  | None => True
  | Some c => isSpace c = false
  end.
Proof.
  induction y as [|c y IH]; [exact I|].
  cbn [TrimRightSpace]. destruct (TrimRightSpace y) as [|d t] eqn:E.
  - destruct (isSpace c) eqn:Ec; [exact I | exact Ec].
  - change (lastByte (String c (String d t))) with
      (match lastByte (String d t) with
       | Some e => Some e
       | None => Some c
       end).
    destruct (lastByte (String d t)) as [e|] eqn:El; [exact IH|].
    apply lastByte_None in El. discriminate.
Qed.

(** [TrimSpace] trims, in the sense of [trimmedFrom]. *)
Lemma TrimSpace_trimmedFrom (x : string) : trimmedFrom x (TrimSpace x).
Proof.
  destruct (TrimLeftSpace_split x) as (l & El & Hl).
  destruct (TrimRightSpace_split (TrimLeftSpace x)) as (r & Er & Hr).
  exists l, r. fold (TrimSpace x) in Er.
  split; [now rewrite <- Er|]. split; [exact Hl|]. split; [exact Hr|].
  split; [apply TrimSpace_head | apply TrimRightSpace_last].
Qed.

End AsciiMeaning.

(** * The section of each record, line by line *)

Section SectionTracking.

Import bufio.

Variable lower : string -> string.
Variable trim : string -> string.

Lemma scanLineWith_step (s : string) (ms : Metrics) (line : string) :
  scanLineWith lower trim (s, ms) line =
  (nextSectionWith lower trim s line, (ms ++ fst (parseLine s line))%list).
Proof.
  unfold scanLineWith, nextSectionWith.
  destruct line as [|c line].
  - simpl. now rewrite app_nil_r.
  - cbn [String.length Nat.eqb].
    destruct (HasPrefix (String c line) "#") eqn:E.
    + unfold parseLine. rewrite E. simpl. now rewrite app_nil_r.
    + destruct (parseLine s (String c line)) as [mms err].
      now rewrite fold_append.
Qed.

Lemma flat_map_map {A B C : Type} (f : B -> list C) (g : A -> B) (l : list A) :
  flat_map f (map g l) = flat_map (fun x => f (g x)) l.
Proof. induction l as [|a l IH]; simpl; [reflexivity | now rewrite IH]. Qed.

(** The loop, position by position: the records are, line after line,
    those of the line under the section reached by the lines before it. *)
Lemma scanLoopWith_positions (lines : list string) (s : string) (ms : Metrics) :
  fold_left (scanLineWith lower trim) lines (s, ms) =
  (sectionFromWith lower trim s lines,
   (ms ++ flat_map
            (fun i => fst (parseLine
                             (sectionFromWith lower trim s (firstn i lines))
                             (nth i lines "")))
            (seq 0 (List.length lines)))%list).
Proof.
  revert s ms; induction lines as [|l lines IH]; intros s ms.
  - simpl. now rewrite app_nil_r.
  - cbn [fold_left]. rewrite scanLineWith_step, IH.
    cbn [List.length seq]. rewrite <- seq_shift.
    cbn [flat_map]. rewrite flat_map_map.
    cbn [firstn nth]. unfold sectionFromWith. cbn [fold_left].
    now rewrite app_assoc.
Qed.

Lemma sectionFromWith_lastHeader (pre : list string) (s : string) :
  sectionFromWith lower trim s pre =
  match lastHeader pre with
  | Some h => lower (trim (TrimPrefix h "#"))
  | None => s
  end.
Proof.
  unfold sectionFromWith. revert s; induction pre as [|l pre IH]; intros s.
  - reflexivity.
  - cbn [fold_left lastHeader]. rewrite IH.
    destruct (lastHeader pre); [reflexivity|].
    unfold nextSectionWith. now destruct (HasPrefix l "#").
Qed.

Lemma lastHeader_none (pre : list string) :
  Forall (fun l => HasPrefix l "#" = false) pre -> lastHeader pre = None.
Proof.
  induction 1 as [|l pre Hl _ IH]; [reflexivity|].
  cbn [lastHeader]. now rewrite IH, Hl.
Qed.

(** The most recent header is the last line that begins with [#]. *)
Lemma lastHeader_most_recent (a b : list string) (h : string) :
  HasPrefix h "#" = true ->
  Forall (fun l => HasPrefix l "#" = false) b ->
  lastHeader (a ++ h :: b) = Some h.
Proof.
  intros Hh Hb. induction a as [|x a IH].
  - cbn [app lastHeader]. now rewrite (lastHeader_none b Hb), Hh.
  - cbn [app lastHeader]. now rewrite IH.
Qed.

(** C5: the records the Scanner produces from a text are, line after line
    of the text, the records of that line, each with the section of its
    line: the lowercase, trimmed text after the [#] of the most recent line
    before it that begins with [#] (the last such line among the lines
    before it), or the empty string when no line before it begins with
    [#].  This holds whatever [strings.ToLower] and [strings.TrimSpace]
    compute; on ASCII text, where they are [ToLower] and [TrimSpace],
    the section is the header's text without the white space at its two
    ends, in lower case byte by byte. *)
Theorem record_section (blob : string) :
  let lines := Scan blob in
  let sectionAt := fun i => sectionAfterWith lower trim (firstn i lines) in
  fst (fetchMetricsWith lower trim (replying blob)) =
    flat_map (fun i => fst (parseLine (sectionAt i) (nth i lines "")))
      (seq 0 (List.length lines)) /\
  (forall i r,
     In r (fst (parseLine (sectionAt i) (nth i lines ""))) ->
     mSection r = sectionAt i) /\
  (forall i a h b,
     firstn i lines = (a ++ h :: b)%list ->
     HasPrefix h "#" = true ->
     Forall (fun l => HasPrefix l "#" = false) b ->
     sectionAt i = lower (trim (TrimPrefix h "#"))) /\
  (forall i,
     Forall (fun l => HasPrefix l "#" = false) (firstn i lines) ->
     sectionAt i = "") /\
  (isASCII blob = true ->
   fetchMetrics (replying blob) =
     fetchMetricsWith ToLower TrimSpace (replying blob) /\
   forall i a h b,
     firstn i lines = (a ++ h :: b)%list ->
     HasPrefix h "#" = true ->
     Forall (fun l => HasPrefix l "#" = false) b ->
     sectionAfter (firstn i lines) = ToLower (TrimSpace (TrimPrefix h "#")) /\
     trimmedFrom (TrimPrefix h "#") (TrimSpace (TrimPrefix h "#")) /\
     loweredFrom (TrimSpace (TrimPrefix h "#"))
       (sectionAfter (firstn i lines))).
Proof.
  intros lines sectionAt.
  split; [|split; [|split; [|split]]].
  - unfold fetchMetricsWith, replying. cbn [redis.Do redis.Bytes].
    fold lines. rewrite scanLoopWith_positions. cbn [fst app].
    apply flat_map_ext. intros i. unfold sectionAt, sectionAfterWith.
    now rewrite sectionFromWith_lastHeader.
  - intros i r Hr. now apply parseLine_section in Hr.
  - intros i a h b E Hh Hb. unfold sectionAt, sectionAfterWith.
    now rewrite E, (lastHeader_most_recent a b h Hh Hb).
  - intros i H. unfold sectionAt, sectionAfterWith.
    now rewrite (lastHeader_none _ H).
  - intros _. split; [reflexivity|].
    intros i a h b E Hh Hb.
    assert (Es : sectionAfter (firstn i lines) =
                 ToLower (TrimSpace (TrimPrefix h "#"))).
    { unfold sectionAfter.
      now rewrite E, (lastHeader_most_recent a b h Hh Hb). }
    split; [exact Es|]. split.
    + apply TrimSpace_trimmedFrom.
    + rewrite Es. apply ToLower_loweredFrom.
Qed.

End SectionTracking.

Lemma record_section_witness :
  let blob := "# Server A  " ++ crlf ++ "x:1" ++ crlf ++
              "#B " ++ crlf ++ "x:1" ++ crlf in
  fst (fetchMetrics (replying blob)) =
    [mkMetric "server a" "" "x" "1"; mkMetric "b" "" "x" "1"] /\
  sectionAfter (firstn 2 (bufio.Scan blob)) = "server a" /\
  trimmedFrom " Server A  " "Server A" /\
  loweredFrom "Server A" "server a" /\
  sectionAfter (firstn 0 (bufio.Scan blob)) = "".
Proof.
  intros blob.
  destruct (record_section ToLower TrimSpace blob) as (H1 & _ & _ & H4 & H5).
  split; [exact H1|].
  destruct (H5 eq_refl) as [_ H6].
  destruct (H6 2 [] "# Server A  " ["x:1"] eq_refl eq_refl) as (E & Ht & Hl).
  - repeat constructor.
  - split; [exact E|]. split; [exact Ht|]. split; [exact Hl|].
    apply (H4 0). constructor.
Defined.
